(** * Checkout pricing and order construction (server.js, cart.js)

  A shallow embedding of the checkout endpoint of the ordering server and
  of the browser-side cart store, with the properties of the checkout
  pipeline stated and proved against it.

  Conventions of the embedding:
  - a JavaScript number is a binary64 double.  A double that holds an
    integer is written [Int z]; every other double ([NaN], the infinities,
    the doubles with a fractional part) is written [Dbl x] with [x] its
    IEEE-754 description.  The sum and the product of two integers are
    computed in [Z] and kept as they are when their magnitude is at most
    2^53, where binary64 is exact; beyond that, and for every other
    operand, the result is rounded by the binary64 operations of
    [SpecFloat];
  - [-0] and [0] are both [Int 0];
  - a string is its sequence of code units, which are taken below 256;
  - a [throw] is a value of the error monad, an [await fetch] is a node of
    the program tree of the handler;
  - server.js comes in two variants that differ in the entries of the
    default price book only; the price book written out here is that of
    the first, and the handler takes its price book from the
    configuration;
  - a function of the cart store is the function from the cart that it
    reads to the cart that it writes back; [money], the reload of the
    price book from a file and [/api/config] are not part of the
    embedding. *)

From Stdlib Require Import ZArith QArith Qround Ascii String Floats.SpecFloat.
From stdpp Require Import base option list strings gmap.

Local Open Scope Z_scope.

(** ** Numbers *)

Module Num.

Definition prec : Z := 53.
Definition emax : Z := 1024.

Inductive number :=
| Int (z : Z)
| Dbl (x : spec_float).

Definition NaN : number := Dbl S754_nan.

(** The exact value of a finite double [±m·2^e] is an integer when [e] is
    not negative or when [2^(-e)] divides [m]. *)
Definition integral_value (s : bool) (m : positive) (e : Z) : option Z :=
  let v := if s then Z.neg m else Z.pos m in
  if 0 <=? e then Some (v * 2 ^ e)
  else if (Z.pos m) mod 2 ^ (- e) =? 0 then Some (v / 2 ^ (- e))
  else None.

(** From the IEEE description of a double to its canonical [number]. *)
Definition of_b64 (x : spec_float) : number :=
  match x with
  | S754_zero _ => Int 0
  | S754_finite s m e =>
      match integral_value s m e with
      | Some z => Int z
      | None => Dbl x
      end
  | _ => Dbl x
  end.

Definition to_b64 (n : number) : spec_float :=
  match n with
  | Int z => binary_normalize prec emax z 0 false
  | Dbl x => x
  end.

(** The integers from [-2^53] to [2^53] are all doubles. *)
Definition safe (z : Z) : bool :=
  (- 9007199254740992 <=? z) && (z <=? 9007199254740992).

(** The double nearest to the integer [z]. *)
Definition of_Z (z : Z) : number :=
  if safe z then Int z else of_b64 (binary_normalize prec emax z 0 false).

(** The double nearest to [m·2^e]: how a decimal literal such as [7.25]
    or [0.5] is written down. *)
Definition b64 (m e : Z) : number := of_b64 (binary_normalize prec emax m e false).

(** [a + b] *)
Definition add (a b : number) : number :=
  match a, b with
  | Int x, Int y => of_Z (x + y)
  | _, _ => of_b64 (SFadd prec emax (to_b64 a) (to_b64 b))
  end.

(** [a * b] *)
Definition mul (a b : number) : number :=
  match a, b with
  | Int x, Int y => of_Z (x * y)
  | _, _ => of_b64 (SFmul prec emax (to_b64 a) (to_b64 b))
  end.

(** [a / b]: the quotient of two integers need not be one, so division
    always goes through binary64. *)
Definition div (a b : number) : number :=
  of_b64 (SFdiv prec emax (to_b64 a) (to_b64 b)).

(** [a > 0]; false for [NaN]. *)
Definition gt0 (a : number) : bool :=
  match a with
  | Int z => 0 <? z
  | Dbl x =>
      match SFcompare x (S754_zero false) with
      | Some Gt => true
      | _ => false
      end
  end.

(** [Number.isInteger(a)] for a value that is a number. *)
Definition isInteger (a : number) : bool :=
  match a with
  | Int _ => true
  | Dbl _ => false
  end.

(** [Math.round(a)]: the integer nearest to [a], the one towards
    +Infinity when two are equally near; [NaN] and the infinities are
    returned as they are.  For [±m·2^e] with [e < 0] this is
    [floor ((±m + 2^(-e-1)) / 2^(-e))]. *)
Definition Math_round (a : number) : number :=
  match a with
  | Int z => Int z
  | Dbl (S754_finite s m e) =>
      let v := if s then Z.neg m else Z.pos m in
      if 0 <=? e then Int (v * 2 ^ e)
      else Int ((2 * v + 2 ^ (- e)) / 2 ^ (- e + 1))
  | Dbl (S754_zero _) => Int 0
  | Dbl x => Dbl x
  end.

(** The exact rational value of a finite number. *)
Definition to_Q (a : number) : option Q :=
  match a with
  | Int z => Some (inject_Z z)
  | Dbl (S754_finite s m e) =>
      let v := if s then Z.neg m else Z.pos m in
      Some (if 0 <=? e then inject_Z (v * 2 ^ e)
            else Qmake v (Z.to_pos (2 ^ (- e))))
  | Dbl (S754_zero _) => Some 0%Q
  | Dbl _ => None
  end.

End Num.
Export Num.

Set Warnings "-register-all".

(** ** The server: server.js *)

Module Server.

(** *** Values of a request body

    [express.json()] hands the handler the parsed JSON body. *)

Inductive value :=
| VUndefined
| VNull
| VBool (b : bool)
| VNum (n : number)
| VStr (s : string)
| VArr (items : list value)
| VObj (fields : gmap string value).

(** [o.k] on an object of the body: a missing key reads as [undefined]. *)
Definition field (o : gmap string value) (k : string) : value :=
  default VUndefined (o !! k).

(** *** Exceptions and the error monad *)

Inductive exn :=
| ZodError
| Error (message : string)
| TypeError (message : string).

Definition throws (A : Type) : Type := exn + A.

Definition ret {A} (a : A) : throws A := inr a.
Definition throw {A} (e : exn) : throws A := inl e.
Definition bind {A B} (m : throws A) (f : A → throws B) : throws B :=
  match m with
  | inl e => inl e
  | inr a => f a
  end.

Notation "'let*' x ':=' m 'in' k" := (bind m (fun x => k))
  (at level 10, x name, m at level 100, k at level 200).

(** *** Price Book *)

Definition defaultPriceBook : gmap string Z :=
  list_to_map (M := gmap string Z)
    [ ("Chicken Over Rice", 999); ("Fish Over Rice", 999);
      ("Lamb And Chicken Over Rice", 1099); ("Lamb Over Rice", 1099);
      ("Chicken and Lamb Shawarma", 799); ("Chicken Shawarma", 799);
      ("Chicken Tikka Roll", 799); ("Kabab Roll", 799);
      ("Beef Burger", 699); ("Beef Burger Combo", 999);
      ("Chicken Burger", 599); ("Chicken Burger Combo", 899);
      ("Fish Burger", 599); ("Fish Burger Combo", 899);
      ("Zinger Burger", 599); ("Zinger Burger Combo", 899);
      ("Small Fries", 299); ("Medium Fries", 399); ("Large Fries", 499);
      ("Chicken Nuggets (5 pc)", 599); ("Chicken Nuggets Combo", 999);
      ("Chicken Tender (3 pc)", 599); ("Chicken Tender Combo", 999);
      ("16 OZ Mango Lassi", 399); ("16 OZ Sweet Lassi", 399);
      ("16 OZ Salt Lassi", 399); ("Soda Can", 150); ("Water Bottle", 100);
      ("BBQ Wings (5 pc)", 899); ("Buffalo Wings (5 pc)", 899);
      ("Garlic Parmesan Wings (5 pc)", 899);
      ("Chicken Kabab", 250); ("Chicken Tikka Boti (5 pc)", 699);
      ("Tandoor Chicken leg (1 pc)", 499); ("Tandoor Chicken leg (2 pc)", 899);
      ("Rice Pudding", 499); ("Perry's Ice Cream (8 oz cup)", 499);
      ("Perry's Cone", 200); ("Gulab Jamun (3 pc)", 399);
      ("Cheese Pizza (Small)", 999); ("Cheese Pizza (Medium)", 1299);
      ("Cheese Pizza (Large)", 1499); ("Cheese Pizza (Extra Large)", 1799);
      ("Veggie Pizza (Small)", 1199); ("Veggie Pizza (Medium)", 1499);
      ("Veggie Pizza (Large)", 1799); ("Veggie Pizza (Extra Large)", 2099);
      ("Buffalo Chicken Pizza (Small)", 1199);
      ("Buffalo Chicken Pizza (Medium)", 1499);
      ("Buffalo Chicken Pizza (Large)", 1799);
      ("Buffalo Chicken Pizza (Extra Large)", 2099);
      ("Pizza Topping (Small)", 100); ("Pizza Topping (Medium)", 150);
      ("Pizza Topping (Large)", 150); ("Pizza Topping (Extra Large)", 200) ].

(** The price book is a plain object: reading a key it does not own falls
    through to [Object.prototype], whose members are functions (and, for
    [__proto__], the prototype object itself). *)
Definition Object_prototype : list string :=
  [ "constructor"; "__defineGetter__"; "__defineSetter__"; "hasOwnProperty";
    "__lookupGetter__"; "__lookupSetter__"; "isPrototypeOf";
    "propertyIsEnumerable"; "toString"; "valueOf"; "__proto__";
    "toLocaleString" ].

(** What [PRICE_BOOK[name]] evaluates to. *)
Inductive property :=
| Undefined
| Number (n : number)
| Inherited (key : string).

Definition lookup (PRICE_BOOK : gmap string Z) (name : string) : property :=
  match PRICE_BOOK !! name with
  | Some c => Number (Int c)
  | None =>
      if bool_decide (name ∈ Object_prototype) then Inherited name
      else Undefined
  end.

(** [Number(v)] of such a value: a function or an object is [NaN]. *)
Definition to_number (v : property) : number :=
  match v with
  | Number n => n
  | _ => NaN
  end.

(** *** Validation: the zod schemas *)

Record cart_line := { name : string; qty : value }.

Record contact_info :=
  { contact_name : string; contact_phone : string; contact_email : option string }.

Record address_object :=
  { in_address_line_1 : string;
    in_locality : option string;
    in_administrative_district_level_1 : option string;
    in_postal_code : option string;
    in_country : option string }.

Inductive address_input :=
| AddressText (text : string)
| AddressObject (a : address_object).

Inductive fulfillment_kind := pickup | delivery.

Record checkout_body :=
  { cart : list cart_line;
    contact : contact_info;
    pickupTime : option string;
    fulfillment : fulfillment_kind;
    address : option address_input;
    paymentToken : string }.

(** [z.string()] and [z.string().min(n)] *)
Definition z_string (v : value) : option string :=
  match v with
  | VStr s => Some s
  | _ => None
  end.

Definition z_string_min (n : nat) (v : value) : option string :=
  match v with
  | VStr s => if bool_decide (n ≤ String.length s)%nat then Some s else None
  | _ => None
  end.

(** [p.optional()]: a missing key is accepted and stays [undefined]. *)
Definition z_optional {A} (p : value → option A) (v : value) : option (option A) :=
  match v with
  | VUndefined => Some None
  | _ => Some <$> p v
  end.

(** [z.number().int().positive()] *)
Definition z_number_int_positive (v : value) : option value :=
  match v with
  | VNum n => if isInteger n && gt0 n then Some v else None
  | _ => None
  end.

(** [z.object({ name: z.string(), qty: z.number().int().positive() })]:
    keys that the schema does not name are dropped. *)
Definition z_cart_line (v : value) : option cart_line :=
  match v with
  | VObj o =>
      n ← z_string (field o "name");
      q ← z_number_int_positive (field o "qty");
      Some {| name := n; qty := q |}
  | _ => None
  end.

Definition z_array {A} (p : value → option A) (v : value) : option (list A) :=
  match v with
  | VArr items => mapM p items
  | _ => None
  end.

Section Schemas.

(** [z.string().email()] tests the string against zod's e-mail pattern,
    which is taken as given. *)
Variable is_email : string → bool.

Definition z_email (v : value) : option string :=
  match v with
  | VStr s => if is_email s then Some s else None
  | _ => None
  end.

Definition z_contact (v : value) : option contact_info :=
  match v with
  | VObj o =>
      n ← z_string_min 1 (field o "name");
      p ← z_string_min 7 (field o "phone");
      e ← z_optional z_email (field o "email");
      Some {| contact_name := n; contact_phone := p; contact_email := e |}
  | _ => None
  end.

Definition AddressTextOrObject (v : value) : option (option address_input) :=
  match v with
  | VUndefined => Some None
  | VStr s =>
      if bool_decide (1 ≤ String.length s)%nat then Some (Some (AddressText s))
      else None
  | VObj o =>
      l1 ← z_string_min 1 (field o "address_line_1");
      loc ← z_optional z_string (field o "locality");
      adl ← z_optional z_string (field o "administrative_district_level_1");
      pc ← z_optional z_string (field o "postal_code");
      c ← z_optional z_string (field o "country");
      Some (Some (AddressObject
        {| in_address_line_1 := l1; in_locality := loc;
           in_administrative_district_level_1 := adl;
           in_postal_code := pc; in_country := c |}))
  | _ => None
  end.

(** [z.enum(['pickup','delivery']).optional().default('pickup')] *)
Definition z_fulfillment (v : value) : option fulfillment_kind :=
  match v with
  | VUndefined => Some pickup
  | VStr s =>
      if bool_decide (s = "pickup") then Some pickup
      else if bool_decide (s = "delivery") then Some delivery
      else None
  | _ => None
  end.

(** [CheckoutBody.parse(req.body)]; [None] is the thrown [ZodError]. *)
Definition CheckoutBody (v : value) : option checkout_body :=
  match v with
  | VObj o =>
      c ← z_array z_cart_line (field o "cart");
      ct ← z_contact (field o "contact");
      pt ← z_optional z_string (field o "pickupTime");
      f ← z_fulfillment (field o "fulfillment");
      a ← AddressTextOrObject (field o "address");
      tok ← z_string (field o "paymentToken");
      Some {| cart := c; contact := ct; pickupTime := pt; fulfillment := f;
              address := a; paymentToken := tok |}
  | _ => None
  end.

End Schemas.

(** *** Helpers *)

(** A sanitized line [{ name, qty, priceCents }]; its [qty] is the integer
    that the quantity of the cart line was found to be. *)
Record item := { item_name : string; item_qty : Z; priceCents : property }.

(** The body of the arrow function that [sanitizeCart] maps over the cart;
    [price == null] holds for [undefined] alone, the prices of the book
    being numbers. *)
Definition sanitizeLine (PRICE_BOOK : gmap string Z) (l : cart_line) : throws item :=
  let price := lookup PRICE_BOOK (name l) in
  match price with
  | Undefined => throw (Error ("Unknown item: " +:+ name l))
  | _ =>
      match qty l with
      | VNum (Int q) =>
          if q <=? 0 then throw (Error ("Bad qty for " +:+ name l))
          else ret {| item_name := name l; item_qty := q; priceCents := price |}
      | _ => throw (Error ("Bad qty for " +:+ name l))
      end
  end.

(** [cart.map(...)]: the lines are visited in order and the first [throw]
    ends the call. *)
Fixpoint sanitizeCart (PRICE_BOOK : gmap string Z) (cart : list cart_line)
  : throws (list item) :=
  match cart with
  | [] => ret []
  | l :: rest =>
      let* i := sanitizeLine PRICE_BOOK l in
      let* items := sanitizeCart PRICE_BOOK rest in
      ret (i :: items)
  end.

(** [items.reduce((s, i) => s + i.priceCents * i.qty, 0)] *)
Definition sumCents (items : list item) : number :=
  fold_left (fun s i => add s (mul (to_number (priceCents i)) (Int (item_qty i))))
            items (Int 0).

(** *** What is sent to, and received from, the remote service *)

Record money := { amount : property; currency : string }.

(** [quantity] is sent as [String(i.qty)]; it is kept as the integer. *)
Record line_item :=
  { li_name : string; quantity : Z; base_price_money : money }.

(** [percentage] is sent as [String(TAX_RATE_PERCENT)]; it is kept as the
    number. *)
Record tax :=
  { tax_name : string; tax_type : string; tax_scope : string; percentage : number }.

Record recipient :=
  { display_name : string; phone_number : string; email_address : option string }.

Record pickup_info :=
  { pickup_recipient : recipient;
    pickup_schedule_type : string;
    pickup_at : option string }.

Record postal_address :=
  { address_line_1 : string;
    locality : option string;
    administrative_district_level_1 : option string;
    postal_code : option string;
    country : string }.

Record delivery_info :=
  { delivery_recipient : recipient;
    delivery_schedule_type : string;
    delivery_address : option postal_address }.

Record fulfillment_block :=
  { type : string;
    state : string;
    pickup_details : option pickup_info;
    delivery_details : option delivery_info }.

Record order :=
  { order_location_id : option string;
    line_items : list line_item;
    taxes : option (list tax);
    fulfillments : list fulfillment_block }.

Record order_payload := { order_idempotency_key : string; order_of : order }.

Record pay_payload :=
  { pay_idempotency_key : string;
    source_id : string;
    pay_location_id : option string;
    amount_money : number;
    order_id : option string }.

(** The remote service is a black box; its answers are described by their
    contract: an error list, and the created object with its id. *)
Record sq_error := { detail : option string }.

Record order_json :=
  { order_errors : list sq_error; created_order : option (option string) }.

Record pay_json :=
  { pay_errors : list sq_error; created_payment : option (option string) }.

(** The outcome of [await fetch(...)] followed by [await resp.json()]:
    either of them throws, or there is a response with its [ok] flag and
    its JSON. *)
Inductive fetched (J : Type) :=
| Rejected (e : exn)
| Responded (ok : bool) (json : J).
Arguments Rejected {J} e.
Arguments Responded {J} ok json.

(** [errors?.[0]?.detail || fallback] *)
Definition first_detail (errors : list sq_error) (fallback : string) : string :=
  match errors with
  | {| detail := Some d |} :: _ => if bool_decide (d = "") then fallback else d
  | _ => fallback
  end.

(** The response of the endpoint: [res.json({success: true, ...})], or
    status 400 with [{success: false, error: e.message || 'Checkout failed'}]
    for the exception [e] that was caught. *)
Inductive response :=
| Success (orderId : option string) (paymentId : option string)
| Failure (e : exn).

(** The handler as a tree: a node for each call whose result comes from
    outside ([crypto.randomUUID()], the two [fetch]es), a leaf for the
    response. *)
Inductive prog :=
| Respond (r : response)
| RandomUUID (k : string → prog)
| CreateOrder (p : order_payload) (k : fetched order_json → prog)
| CreatePayment (p : pay_payload) (k : fetched pay_json → prog).

(** *** Configuration read from the environment *)

Record config :=
  { PRICE_BOOK : gmap string Z;
    TAX_RATE_PERCENT : number;
    DELIVERY_FEE_CENTS : number;
    LOCATION_ID : option string }.

(** *** Checkout: create order, then capture payment *)

Definition recipient_of (c : contact_info) : recipient :=
  {| display_name := contact_name c;
     phone_number := contact_phone c;
     email_address := contact_email c |}.

(** [line_items], the delivery fee line included. *)
Definition line_items_of (cfg : config) (is_delivery : bool) (items : list item)
  : list line_item :=
  map (fun i => {| li_name := item_name i; quantity := item_qty i;
                   base_price_money := {| amount := priceCents i; currency := "USD" |} |})
      items
  ++ (if is_delivery && gt0 (DELIVERY_FEE_CENTS cfg)
      then [ {| li_name := "Delivery Fee"; quantity := 1;
                base_price_money := {| amount := Number (DELIVERY_FEE_CENTS cfg);
                                       currency := "USD" |} |} ]
      else []).

Definition taxes_of (cfg : config) : option (list tax) :=
  if gt0 (TAX_RATE_PERCENT cfg)
  then Some [ {| tax_name := "Sales Tax"; tax_type := "ADDITIVE";
                 tax_scope := "ORDER"; percentage := TAX_RATE_PERCENT cfg |} ]
  else None.

(** [delivery_address]: free text or an address object; [undefined] when
    the body has no address. *)
Definition delivery_address_of (a : option address_input) : option postal_address :=
  match a with
  | Some (AddressText text) =>
      Some {| address_line_1 := text; locality := None;
              administrative_district_level_1 := None;
              postal_code := None; country := "US" |}
  | Some (AddressObject o) =>
      Some {| address_line_1 := in_address_line_1 o;
              locality := in_locality o;
              administrative_district_level_1 := in_administrative_district_level_1 o;
              postal_code := in_postal_code o;
              country := match in_country o with
                         | Some c => if bool_decide (c = "") then "US" else c
                         | None => "US"
                         end |}
  | None => None
  end.

Definition fulfillment_of (body : checkout_body) (is_delivery : bool) : fulfillment_block :=
  if is_delivery then
    {| type := "DELIVERY"; state := "PROPOSED";
       pickup_details := None;
       delivery_details :=
         Some {| delivery_recipient := recipient_of (contact body);
                 delivery_schedule_type := "ASAP";
                 delivery_address := delivery_address_of (address body) |} |}
  else
    {| type := "PICKUP"; state := "PROPOSED";
       pickup_details :=
         Some {| pickup_recipient := recipient_of (contact body);
                 pickup_schedule_type :=
                   match pickupTime body with
                   | Some t => if bool_decide (t = "") then "ASAP" else "SCHEDULED"
                   | None => "ASAP"
                   end;
                 pickup_at := pickupTime body |};
       delivery_details := None |}.

(** [(body.fulfillment || 'pickup') === 'delivery'] *)
Definition isDelivery (body : checkout_body) : bool :=
  match fulfillment body with
  | delivery => true
  | pickup => false
  end.

Definition orderObj (cfg : config) (body : checkout_body) (items : list item) : order :=
  let isDelivery := isDelivery body in
  {| order_location_id := LOCATION_ID cfg;
     line_items := line_items_of cfg isDelivery items;
     taxes := taxes_of cfg;
     fulfillments := [ fulfillment_of body isDelivery ] |}.

(** Totals *)
Definition subtotalCents (cfg : config) (is_delivery : bool) (items : list item) : number :=
  add (sumCents items) (if is_delivery then DELIVERY_FEE_CENTS cfg else Int 0).

Definition taxCents (cfg : config) (subtotal : number) : number :=
  if gt0 (TAX_RATE_PERCENT cfg)
  then Math_round (mul subtotal (div (TAX_RATE_PERCENT cfg) (Int 100)))
  else Int 0.

Definition totalCents (cfg : config) (is_delivery : bool) (items : list item) : number :=
  let subtotal := subtotalCents cfg is_delivery items in
  add subtotal (taxCents cfg subtotal).

Section Checkout.

Variable is_email : string → bool.
Variable cfg : config.

(** The part of the handler after the order was created. *)
Definition take_payment (body : checkout_body) (items : list item)
           (orderId : option string) : prog :=
  let isDelivery := isDelivery body in
  RandomUUID (fun key =>
    CreatePayment
      {| pay_idempotency_key := key;
         source_id := paymentToken body;
         pay_location_id := LOCATION_ID cfg;
         amount_money := totalCents cfg isDelivery items;
         order_id := orderId |}
      (fun payResp =>
         match payResp with
         | Rejected e => Respond (Failure e)
         | Responded false payJson =>
             Respond (Failure (Error
               (first_detail (pay_errors payJson) "Square createPayment failed")))
         | Responded true payJson =>
             Respond (Success orderId
                        (match created_payment payJson with
                         | Some id => id
                         | None => None
                         end))
         end)).

(** [app.post('/api/checkout', ...)] *)
Definition checkout (req_body : value) : prog :=
  match CheckoutBody is_email req_body with
  | None => Respond (Failure ZodError)
  | Some body =>
      match sanitizeCart (PRICE_BOOK cfg) (cart body) with
      | inl e => Respond (Failure e)
      | inr items =>
          RandomUUID (fun key =>
            CreateOrder
              {| order_idempotency_key := key;
                 order_of := orderObj cfg body items |}
              (fun orderResp =>
                 match orderResp with
                 | Rejected e => Respond (Failure e)
                 | Responded false orderJson =>
                     Respond (Failure (Error
                       (first_detail (order_errors orderJson)
                                     "Square createOrder failed")))
                 | Responded true orderJson =>
                     match created_order orderJson with
                     | None =>
                         Respond (Failure (TypeError
                           "Cannot read properties of undefined (reading 'id')"))
                     | Some orderId => take_payment body items orderId
                     end
                 end))
      end
  end.

End Checkout.

(** *** Runs of the handler

    The outside world of one run: the UUIDs that [crypto.randomUUID()]
    hands out, in the order of the calls, and the answers of the remote
    service. *)

Record world :=
  { uuid : nat → string;
    order_service : order_payload → fetched order_json;
    payment_service : pay_payload → fetched pay_json }.

Inductive event :=
| Drawn (u : string)
| OrderCall (p : order_payload) (r : fetched order_json)
| PaymentCall (p : pay_payload) (r : fetched pay_json).

(** [run w n p]: the events of [p] in the world [w], [n] UUIDs having been
    drawn before, and the response. *)
Fixpoint run (w : world) (n : nat) (p : prog) : list event * response :=
  match p with
  | Respond r => ([], r)
  | RandomUUID k =>
      let u := uuid w n in
      let '(t, r) := run w (S n) (k u) in (Drawn u :: t, r)
  | CreateOrder pl k =>
      let a := order_service w pl in
      let '(t, r) := run w n (k a) in (OrderCall pl a :: t, r)
  | CreatePayment pl k =>
      let a := payment_service w pl in
      let '(t, r) := run w n (k a) in (PaymentCall pl a :: t, r)
  end.

(** What a run shows from outside: the UUIDs it drew, the idempotency keys
    it sent, the calls it made. *)
Definition draws (t : list event) : list string :=
  omap (λ e, match e with Drawn u => Some u | _ => None end) t.

Definition keys (t : list event) : list string :=
  omap (λ e, match e with
             | OrderCall p _ => Some (order_idempotency_key p)
             | PaymentCall p _ => Some (pay_idempotency_key p)
             | Drawn _ => None
             end) t.

Definition payment_calls (t : list event) : list (pay_payload * fetched pay_json) :=
  omap (λ e, match e with PaymentCall p r => Some (p, r) | _ => None end) t.

(** [resp.ok] of an outcome; a [fetch] that threw has no response. *)
Definition succeeded {J} (r : fetched J) : bool :=
  match r with
  | Responded true _ => true
  | _ => false
  end.

(** Every run has one of three shapes: no call at all; the order call
    alone, which did not give an order; the order call, which succeeded,
    followed by the payment call. *)
Inductive run_shape (w : world) (n : nat) : list event → response → Prop :=
| shape_rejected e :
    run_shape w n [] (Failure e)
| shape_order_failed op oa e :
    order_idempotency_key op = uuid w n →
    oa = order_service w op →
    (succeeded oa = false ∨ ∃ oj, oa = Responded true oj ∧ created_order oj = None) →
    run_shape w n [Drawn (uuid w n); OrderCall op oa] (Failure e)
| shape_paid op oj pp pa r :
    order_idempotency_key op = uuid w n →
    pay_idempotency_key pp = uuid w (S n) →
    Responded true oj = order_service w op →
    pa = payment_service w pp →
    (succeeded pa = false → ∃ e, r = Failure e) →
    run_shape w n [Drawn (uuid w n); OrderCall op (Responded true oj);
                   Drawn (uuid w (S n)); PaymentCall pp pa] r.

(** *** The totals as the specification words them

    Rounding half up of an exact rational, and the tax as the exact
    product [subtotal × rate / 100] rounded that way. *)
Definition round_half_up (q : Q) : Z := Qfloor (q + (1 # 2)).

Definition tax_exact (subtotal : Z) (rate : Q) : Z :=
  round_half_up (inject_Z subtotal * rate / inject_Z 100).

(** The price of a line times its quantity, and their sum over the lines. *)
Definition line_total (i : item) : Z :=
  match priceCents i with
  | Number (Int c) => c * item_qty i
  | _ => 0
  end.

Definition lines_total (items : list item) : Z :=
  foldr (λ i acc, line_total i + acc) 0 items.

(** A cart entry of the request body that names item [n] in quantity [q],
    whatever else (a price, a total) the client put into it. *)
Definition entry_names (o : gmap string value) (n : string) (q : Z) : Prop :=
  o !! "name" = Some (VStr n) ∧ o !! "qty" = Some (VNum (Int q)).

(** A line that [sanitizeCart] lets through. *)
Definition sanitizes (PRICE_BOOK : gmap string Z) (l : cart_line) : Prop :=
  ∃ i, sanitizeLine PRICE_BOOK l = inr i.

(** *** Example requests and worlds *)

Definition object (fields : list (string * value)) : value :=
  VObj (list_to_map fields).

Definition entry (n : string) (q : value) : value :=
  object [ ("name", VStr n); ("qty", q) ].

(** A request for pickup, to which [more] adds keys. *)
Definition request (entries : list value) (more : list (string * value)) : value :=
  object ([ ("cart", VArr entries);
            ("contact", object [ ("name", VStr "Amina"); ("phone", VStr "7165550100") ]);
            ("paymentToken", VStr "cnon:card-nonce-ok") ] ++ more).

Definition any_email (s : string) : bool := true.

Definition numbered (prefix : string) (n : nat) : string :=
  prefix +:+ String (ascii_of_nat (48 + n)) "".

(** A world in which the remote service accepts everything. *)
Definition world_ok : world :=
  {| uuid := numbered "uuid-";
     order_service := λ _, Responded true
       {| order_errors := []; created_order := Some (Some "ORDER-1") |};
     payment_service := λ _, Responded true
       {| pay_errors := []; created_payment := Some (Some "PAYMENT-1") |} |}.

(** A world in which order creation is refused. *)
Definition world_order_refused : world :=
  {| uuid := numbered "uuid-";
     order_service := λ _, Responded false
       {| order_errors := [ {| detail := Some "Invalid line item" |} ];
          created_order := None |};
     payment_service := λ _, Responded true
       {| pay_errors := []; created_payment := Some (Some "PAYMENT-1") |} |}.

(** The delivery example: two Small Fries, 8 percent, a fee of 300. *)
Definition example_config : config :=
  {| PRICE_BOOK := defaultPriceBook;
     TAX_RATE_PERCENT := Int 8;
     DELIVERY_FEE_CENTS := Int 300;
     LOCATION_ID := Some "LOCATION" |}.

Definition example_items : list item :=
  [ {| item_name := "Small Fries"; item_qty := 2; priceCents := Number (Int 299) |} ].

(** Two Water Bottles at a rate of 7.25 percent, for pickup. *)
Definition config_7_25 : config :=
  {| PRICE_BOOK := defaultPriceBook;
     TAX_RATE_PERCENT := b64 29 (-2);
     DELIVERY_FEE_CENTS := Int 0;
     LOCATION_ID := Some "LOCATION" |}.

Definition two_water_bottles : list item :=
  [ {| item_name := "Water Bottle"; item_qty := 2; priceCents := Number (Int 100) |} ].

(** A cart entry to which the client added a price and a total. *)
Definition tampered_entry : gmap string value :=
  list_to_map [ ("name", VStr "Small Fries"); ("qty", VNum (Int 2));
                ("priceCents", VNum (Int 1)); ("total", VNum (Int 2)) ].

Definition fries_request : value :=
  request [ entry "Small Fries" (VNum (Int 2)) ] [].

Definition scheduled_pickup_request : value :=
  request [ entry "Small Fries" (VNum (Int 2)) ]
          [ ("pickupTime", VStr "2025-06-01T18:30:00Z") ].

Definition delivery_request_without_address : value :=
  request [ entry "Small Fries" (VNum (Int 2)) ] [ ("fulfillment", VStr "delivery") ].

Definition zero_quantity_request : value :=
  request [ entry "Small Fries" (VNum (Int 0)) ] [].

(** The four kinds of quantity that are not a positive integer. *)
Inductive bad_quantity : value → Prop :=
| qty_zero : bad_quantity (VNum (Int 0))
| qty_negative q : q < 0 → bad_quantity (VNum (Int q))
| qty_non_integer x : bad_quantity (VNum (Dbl x))
| qty_missing : bad_quantity VUndefined.

(** *** Health check: [app.get('/api/selftest', ...)] *)

(** The credentials that the process reads from its environment besides
    [LOCATION_ID]; a variable that is not set is [undefined]. *)
Record credentials :=
  { ACCESS_TOKEN : option string; APPLICATION_ID : option string }.

(** Truthiness of such a variable: [!v] holds for [undefined] and for the
    empty string. *)
Definition is_set (v : option string) : bool :=
  match v with
  | Some s => negb (bool_decide (s = ""))
  | None => false
  end.

(** [k in PRICE_BOOK]: own keys and the keys of [Object.prototype]. *)
Definition has_key (PRICE_BOOK : gmap string Z) (k : string) : bool :=
  bool_decide (is_Some (PRICE_BOOK !! k)) || bool_decide (k ∈ Object_prototype).

Definition mustHave : list string :=
  [ "Cheese Pizza (Small)"; "Pizza Topping (Small)" ].

Record selftest_result :=
  { selftest_ok : bool; problems : list string; missingPriceKeys : list string }.

Definition selftest (creds : credentials) (cfg : config) : selftest_result :=
  let problems :=
    (if is_set (APPLICATION_ID creds) then [] else [ "Missing SQUARE_APPLICATION_ID" ])
    ++ (if is_set (LOCATION_ID cfg) then [] else [ "Missing SQUARE_LOCATION_ID" ])
    ++ (if is_set (ACCESS_TOKEN creds) then [] else [ "Missing SQUARE_ACCESS_TOKEN" ]) in
  let missing := List.filter (λ k, negb (has_key (PRICE_BOOK cfg) k)) mustHave in
  {| selftest_ok := (length problems =? 0)%nat && (length missing =? 0)%nat;
     problems := problems;
     missingPriceKeys := missing |}.

(** *** What a run shows of its calls *)

Definition order_calls (t : list event) : list (order_payload * fetched order_json) :=
  omap (λ e, match e with OrderCall p r => Some (p, r) | _ => None end) t.

(** The keys that [CheckoutBody] reads from the body. *)
Definition body_keys : list string :=
  [ "cart"; "contact"; "pickupTime"; "fulfillment"; "address"; "paymentToken" ].

(** *** The runs of the handler, case by case *)

(** The payloads that the handler builds for a body and its items. *)
Definition order_payload_of (cfg : config) (w : world) (n : nat)
           (body : checkout_body) (items : list item) : order_payload :=
  {| order_idempotency_key := uuid w n; order_of := orderObj cfg body items |}.

Definition pay_payload_of (cfg : config) (w : world) (n : nat)
           (body : checkout_body) (items : list item) (orderId : option string)
  : pay_payload :=
  {| pay_idempotency_key := uuid w (S n);
     source_id := paymentToken body;
     pay_location_id := LOCATION_ID cfg;
     amount_money := totalCents cfg (isDelivery body) items;
     order_id := orderId |}.

(** What the handler calls, with what, and what it answers. *)
Inductive run_case (is_email : string → bool) (cfg : config) (req : value)
          (w : world) (n : nat) : list event → response → Prop :=
| case_invalid :
    CheckoutBody is_email req = None →
    run_case is_email cfg req w n [] (Failure ZodError)
| case_unsanitized body e :
    CheckoutBody is_email req = Some body →
    sanitizeCart (PRICE_BOOK cfg) (cart body) = inl e →
    run_case is_email cfg req w n [] (Failure e)
| case_order_failed body items e :
    CheckoutBody is_email req = Some body →
    sanitizeCart (PRICE_BOOK cfg) (cart body) = inr items →
    let op := order_payload_of cfg w n body items in
    match order_service w op with
    | Rejected e' => e = e'
    | Responded false oj =>
        e = Error (first_detail (order_errors oj) "Square createOrder failed")
    | Responded true oj =>
        created_order oj = None
        ∧ e = TypeError "Cannot read properties of undefined (reading 'id')"
    end →
    run_case is_email cfg req w n
      [Drawn (uuid w n); OrderCall op (order_service w op)] (Failure e)
| case_paid body items oj orderId r :
    CheckoutBody is_email req = Some body →
    sanitizeCart (PRICE_BOOK cfg) (cart body) = inr items →
    let op := order_payload_of cfg w n body items in
    order_service w op = Responded true oj →
    created_order oj = Some orderId →
    let pp := pay_payload_of cfg w n body items orderId in
    match payment_service w pp with
    | Rejected e => r = Failure e
    | Responded false pj =>
        r = Failure (Error (first_detail (pay_errors pj) "Square createPayment failed"))
    | Responded true pj =>
        r = Success orderId (match created_payment pj with
                             | Some id => id
                             | None => None
                             end)
    end →
    run_case is_email cfg req w n
      [Drawn (uuid w n); OrderCall op (Responded true oj);
       Drawn (uuid w (S n)); PaymentCall pp (payment_service w pp)] r.

(** *** More example requests and worlds *)

(** A world in which the order is created and the payment is declined. *)
Definition world_payment_declined : world :=
  {| uuid := numbered "uuid-";
     order_service := λ _, Responded true
       {| order_errors := []; created_order := Some (Some "ORDER-1") |};
     payment_service := λ _, Responded false
       {| pay_errors := [ {| detail := Some "Card declined." |} ];
          created_payment := None |} |}.

Definition fries_body : checkout_body :=
  {| cart := [ {| name := "Small Fries"; qty := VNum (Int 2) |} ];
     contact := {| contact_name := "Amina";
                   contact_phone := "7165550100";
                   contact_email := None |};
     pickupTime := None; fulfillment := pickup; address := None;
     paymentToken := "cnon:card-nonce-ok" |}.

Definition empty_cart_request : value := request [] [].

(** A pickup whose [pickupTime] is the empty string, and a delivery whose
    address object has the empty string as its country. *)
Definition empty_pickup_time_request : value :=
  request [ entry "Small Fries" (VNum (Int 2)) ] [ ("pickupTime", VStr "") ].

Definition empty_country_request : value :=
  request [ entry "Small Fries" (VNum (Int 2)) ]
          [ ("fulfillment", VStr "delivery");
            ("address", object [ ("address_line_1", VStr "12 Elm St");
                                 ("country", VStr "") ]) ].

Definition unknown_item_request : value :=
  request [ entry "Unicorn Combo" (VNum (Int 1)) ] [].

End Server.

(** ** The browser-side cart: cart.js *)

Module Cart.

(** What [JSON.parse] gives back for a numeric field that was written
    with [JSON.stringify]: the number, or [null] where the number was
    [NaN] or an infinity. *)
Inductive stored :=
| SNull
| SNum (n : number).

Definition stringify (n : number) : stored :=
  match n with
  | Dbl S754_nan | Dbl (S754_infinity _) => SNull
  | _ => SNum n
  end.

Record row := { name : string; priceCents : stored; qty : stored }.

(** The [qty] argument of a call. *)
Inductive arg :=
| Missing
| Str (s : string)
| Num (n : number).

(** Truthiness, for [qty || "1"] *)
Definition truthy (a : arg) : bool :=
  match a with
  | Missing => false
  | Str s => negb (bool_decide (s = ""))
  | Num (Int z) => negb (z =? 0)
  | Num (Dbl S754_nan) | Num (Dbl (S754_zero _)) => false
  | Num (Dbl _) => true
  end.

(** White space that [parseInt] skips, as code units below 256. *)
Definition is_white (c : ascii) : bool :=
  bool_decide (N_of_ascii c ∈ [9; 10; 11; 12; 13; 32; 160]%N).

Fixpoint skip_white (s : string) : string :=
  match s with
  | String c rest => if is_white c then skip_white rest else s
  | EmptyString => s
  end.

Definition digit (c : ascii) : option Z :=
  let n := Z.of_N (N_of_ascii c) in
  if (48 <=? n) && (n <=? 57) then Some (n - 48) else None.

(** The value of the longest prefix of decimal digits; [None] when there
    is no digit. *)
Fixpoint digits (s : string) (acc : option Z) : option Z :=
  match s with
  | String c rest =>
      match digit c with
      | Some d => digits rest (Some (10 * default 0 acc + d))
      | None => acc
      end
  | EmptyString => acc
  end.

(** [parseInt(s, 10)] on a string *)
Definition parseInt_string (s : string) : number :=
  let s := skip_white s in
  let '(negative, s) :=
    match s with
    | String "-"%char rest => (true, rest)
    | String "+"%char rest => (false, rest)
    | _ => (false, s)
    end in
  match digits s None with
  | Some v => of_Z (if negative then - v else v)
  | None => NaN
  end.

(** [Math.max(a, b)]: [NaN] as soon as one argument is [NaN]. *)
Definition Math_max (a b : number) : number :=
  match a, b with
  | Int x, Int y => Int (Z.max x y)
  | _, _ =>
      match SFcompare (to_b64 a) (to_b64 b) with
      | Some Lt => b
      | Some _ => a
      | None => NaN
      end
  end.

Section Store.

(** [String(n)] for a number, which [parseInt] applies to an argument
    that is not a string; taken as given. *)
Variable Number_toString : number → string.

Definition parseInt (a : arg) : number :=
  match a with
  | Str s => parseInt_string s
  | Num n => parseInt_string (Number_toString n)
  | Missing => parseInt_string "undefined"
  end.

(** [Math.max(1, parseInt(qty || "1", 10))] *)
Definition coerce (qty : arg) : number :=
  Math_max (Int 1) (parseInt (if truthy qty then qty else Str "1")).

(** [existing.qty += qty]; [null + qty] is [0 + qty]. *)
Definition increase (old : stored) (qty : number) : number :=
  match old with
  | SNum a => add a qty
  | SNull => add (Int 0) qty
  end.

(** [cart.find(i => i.name === name)], as the index of the row. *)
Fixpoint find (cart : list row) (n : string) : option nat :=
  match cart with
  | [] => None
  | r :: rest =>
      if bool_decide (name r = n) then Some 0%nat
      else S <$> find rest n
  end.

(** [addItem(name, priceCents, qty = 1)]: the cart that is read, and the
    cart that is written back. *)
Definition addItem (n : string) (price : number) (qty : arg) (cart : list row)
  : list row :=
  let qty := match qty with Missing => Num (Int 1) | _ => qty end in
  let qty := coerce qty in
  match find cart n with
  | Some i =>
      alter (λ r, {| name := name r; priceCents := priceCents r;
                     qty := stringify (increase (Cart.qty r) qty) |}) i cart
  | None =>
      cart ++ [ {| name := n; priceCents := stringify price; qty := stringify qty |} ]
  end.

(** [setQty(index, qty)]; nothing is written when there is no row at
    [index]. *)
Definition setQty (index : nat) (qty : arg) (cart : list row) : list row :=
  let qty := coerce qty in
  alter (λ r, {| name := name r; priceCents := priceCents r;
                 qty := stringify qty |}) index cart.

End Store.

(** A stored quantity that is an integer of at least 1. *)
Definition valid_qty (q : stored) : Prop :=
  ∃ z, q = SNum (Int z) ∧ 1 ≤ z.

(** [Number(v)] of a stored field: [null] is 0. *)
Definition number_of (v : stored) : number :=
  match v with
  | SNum n => n
  | SNull => Int 0
  end.

(** [clearCart()]: the cart that is written. *)
Definition clearCart (cart : list row) : list row := [].

(** [removeItem(index)]: [cart.splice(index, 1)] for an integer [index]; a
    negative index counts from the end of the cart, and stops at its
    start. *)
Definition removeItem (index : Z) (cart : list row) : list row :=
  let len := Z.of_nat (length cart) in
  let start := if index <? 0 then Z.max (len + index) 0 else Z.min index len in
  delete (Z.to_nat start) cart.

(** [subtotalCents()]: [read().reduce((s, i) => s + i.priceCents * i.qty, 0)] *)
Definition subtotalCents (cart : list row) : number :=
  fold_left (λ s r, add s (mul (number_of (priceCents r)) (number_of (qty r))))
            cart (Int 0).

(** What a row whose price and quantity are integers, or [null], adds to
    the subtotal. *)
Definition row_total (r : row) : Z :=
  match priceCents r, qty r with
  | SNum (Int p), SNum (Int q) => p * q
  | _, _ => 0
  end.

Definition rows_total (cart : list row) : Z :=
  foldr (λ r acc, row_total r + acc) 0 cart.

(** A row whose price and quantity count as integers that are not
    negative: integers as they were written, or [null], which counts as
    0. *)
Definition whole_row (r : row) : Prop :=
  ∃ p q, number_of (priceCents r) = Int p ∧ number_of (qty r) = Int q
         ∧ 0 ≤ p ∧ 0 ≤ q.

(** The row with another quantity. *)
Definition with_qty (q : stored) (r : row) : row :=
  {| name := name r; priceCents := priceCents r; qty := q |}.

End Cart.

(** * Properties *)

(** ** Rounding *)

Module NumFacts.

(** Half a unit above an integer is floored to that integer. *)
Lemma Qfloor_half_Z z : Qfloor (inject_Z z + (1 # 2)) = z.
Proof.
  unfold Qfloor, Qplus, inject_Z; simpl.
  rewrite Z.mul_1_r.
  replace (z * 2 + 1) with (1 + z * 2) by lia.
  rewrite Z.div_add by lia. reflexivity.
Qed.

(** Within the safe range an integer is its own double. *)
Lemma of_Z_safe z : - 2 ^ 53 ≤ z ≤ 2 ^ 53 → of_Z z = Int z.
Proof.
  intros Hz. unfold of_Z, safe. change (2 ^ 53) with 9007199254740992 in Hz.
  destruct (Z.leb_spec (- 9007199254740992) z); [|lia].
  destruct (Z.leb_spec z 9007199254740992); [done | lia].
Qed.

(** [Math.round] rounds the exact value of its argument half up. *)
Lemma Math_round_half_up a q :
  to_Q a = Some q → Math_round a = Int (Server.round_half_up q).
Proof.
  unfold Server.round_half_up, to_Q, Math_round.
  destruct a as [z|[sz| | |s m e]]; try discriminate.
  - intros [= <-]. by rewrite Qfloor_half_Z.
  - intros [= <-]. reflexivity.
  - destruct (Z.leb_spec 0 e) as [He|He]; intros [= <-].
    + by rewrite Qfloor_half_Z.
    + f_equal. set (v := if s then Z.neg m else Z.pos m).
      assert (Hp : 0 < 2 ^ (- e)) by (apply Z.pow_pos_nonneg; lia).
      unfold Qfloor, Qplus; simpl Qnum; simpl Qden.
      rewrite Pos2Z.inj_mul, Z2Pos.id by lia.
      replace (- e + 1) with (Z.succ (- e)) by lia.
      rewrite Z.pow_succ_r by lia.
      f_equal; lia.
Qed.

(** *** Binary64: digits, shifts and rounding

    [digits2_pos p] is the number of bits of [p]. *)
Lemma digits2_pos_bounds p :
  2 ^ (Z.pos (digits2_pos p) - 1) ≤ Z.pos p < 2 ^ Z.pos (digits2_pos p).
Proof.
  induction p as [p IH|p IH|]; simpl digits2_pos.
  - rewrite Pos2Z.inj_succ, Pos2Z.inj_xI.
    replace (Z.succ (Z.pos (digits2_pos p)) - 1) with (Z.succ (Z.pos (digits2_pos p) - 1)) by lia.
    rewrite !Z.pow_succ_r by lia.
    destruct IH as [IH1 IH2]. revert IH1 IH2.
    generalize (2 ^ (Z.pos (digits2_pos p) - 1)) (2 ^ Z.pos (digits2_pos p)). lia.
  - rewrite Pos2Z.inj_succ. change (Z.pos p~0) with (2 * Z.pos p).
    replace (Z.succ (Z.pos (digits2_pos p)) - 1) with (Z.succ (Z.pos (digits2_pos p) - 1)) by lia.
    rewrite !Z.pow_succ_r by lia.
    destruct IH as [IH1 IH2]. revert IH1 IH2.
    generalize (2 ^ (Z.pos (digits2_pos p) - 1)) (2 ^ Z.pos (digits2_pos p)). lia.
  - simpl. lia.
Qed.

(** The number of bits is determined by the two powers of 2 around. *)
Lemma digits2_pos_unique p d :
  2 ^ (d - 1) ≤ Z.pos p < 2 ^ d → Z.pos (digits2_pos p) = d.
Proof.
  intros [Hlo Hhi]. pose proof (digits2_pos_bounds p) as [Hlo' Hhi'].
  assert (0 < d).
  { destruct (Z.lt_ge_cases 0 d); [done|].
    rewrite (Z.pow_neg_r 2 (d - 1)) in Hlo by lia.
    destruct (Z.eq_dec d 0) as [->|]; [simpl in Hhi; lia|].
    rewrite Z.pow_neg_r in Hhi by lia. lia. }
  destruct (Z.lt_trichotomy (Z.pos (digits2_pos p)) d) as [Hlt|[Heq|Hgt]]; [|done|].
  - assert (2 ^ Z.pos (digits2_pos p) ≤ 2 ^ (d - 1)) by (apply Z.pow_le_mono_r; lia). lia.
  - assert (2 ^ d ≤ 2 ^ (Z.pos (digits2_pos p) - 1)) by (apply Z.pow_le_mono_r; lia). lia.
Qed.

(** Shifting right by [p] bits divides by [2^p]. *)
Lemma shr_1_m rec : 0 ≤ shr_m rec → shr_m (shr_1 rec) = shr_m rec / 2 .
Proof.
  destruct rec as [m r s]. simpl. intros Hm.
  destruct m as [|[p|p|]|p]; simpl; try lia; try reflexivity.
  - rewrite Pos2Z.inj_xI. apply (Z.div_unique _ _ _ 1); lia.
  - change (Z.pos p~0) with (2 * Z.pos p). apply (Z.div_unique _ _ _ 0); lia.
Qed.

(** [p] shifts in a row. *)
Lemma iter_shr_1_m p rec :
  0 ≤ shr_m rec → shr_m (SpecFloat.iter_pos shr_1 p rec) = shr_m rec / 2 ^ Z.pos p.
Proof.
  revert rec. induction p as [p IH|p IH|]; intros rec Hm; simpl SpecFloat.iter_pos.
  - assert (H1 : 0 ≤ shr_m (shr_1 rec)) by (rewrite shr_1_m by done; apply Z.div_pos; lia).
    assert (H2 : 0 ≤ shr_m (SpecFloat.iter_pos shr_1 p (shr_1 rec)))
      by (rewrite IH by done; apply Z.div_pos; [done | apply Z.pow_pos_nonneg; lia]).
    rewrite IH, IH, shr_1_m by done.
    rewrite !Z.div_div by (try apply Z.pow_pos_nonneg; lia).
    f_equal. rewrite Pos2Z.inj_xI.
    replace (2 * Z.pos p + 1) with (1 + Z.pos p + Z.pos p) by lia.
    rewrite !Z.pow_add_r by lia. simpl (2 ^ 1). lia.
  - assert (H2 : 0 ≤ shr_m (SpecFloat.iter_pos shr_1 p rec))
      by (rewrite IH by done; apply Z.div_pos; [done | apply Z.pow_pos_nonneg; lia]).
    rewrite IH, IH by done.
    rewrite !Z.div_div by (try apply Z.pow_pos_nonneg; lia).
    f_equal. change (Z.pos p~0) with (2 * Z.pos p).
    replace (2 * Z.pos p) with (Z.pos p + Z.pos p) by lia.
    rewrite !Z.pow_add_r by lia. lia.
  - rewrite shr_1_m by done. reflexivity.
Qed.

(** Rounding keeps the truncated mantissa or takes the next one. *)
Lemma round_nearest_even_near m l :
  round_nearest_even m l = m ∨ round_nearest_even m l = m + 1.
Proof. destruct l as [|[]]; simpl; auto. destruct (Z.even m); auto. Qed.

(** Above the subnormal range a number of [e] bits has the exponent
    [e - 53]. *)
Lemma fexp_free e : -1074 ≤ e - 53 → fexp prec emax e = e - 53.
Proof. unfold fexp, SpecFloat.emin, prec, emax. lia. Qed.

(** A mantissa of 53 bits is not shifted, and is kept as it is. *)
Lemma shr_fexp_none (m : positive) e :
  Z.pos (digits2_pos m) = 53 → -1074 ≤ e →
  shr_fexp prec emax (Z.pos m) e loc_Exact
  = ({| shr_m := Z.pos m; shr_r := false; shr_s := false |}, e).
Proof.
  intros Hd He. unfold shr_fexp. simpl Zdigits2. rewrite Hd, fexp_free by lia.
  replace (53 + e - 53 - e) with 0 by lia. reflexivity.
Qed.

Lemma binary_round_aux_exact (m : positive) e :
  Z.pos (digits2_pos m) = 53 → -1074 ≤ e ≤ 971 →
  binary_round_aux prec emax false (Z.pos m) e loc_Exact = S754_finite false m e.
Proof.
  intros Hd He. unfold binary_round_aux.
  rewrite shr_fexp_none by (done || lia). simpl.
  rewrite shr_fexp_none by (done || lia). simpl.
  unfold emax, prec. destruct (Z.leb_spec e (1024 - 53)); [done | lia].
Qed.

(** A mantissa of more than 53 bits is shifted down to 53 bits and rounded
    to one of the two doubles around it. *)
Lemma binary_round_aux_faithful (M : positive) e :
  let n := Z.pos (digits2_pos M) - 53 in
  0 < n → -1074 ≤ e + n → e + n + 1 ≤ 971 →
  ∃ m' e', binary_round_aux prec emax false (Z.pos M) e loc_Exact
           = S754_finite false m' e'
    ∧ e + n ≤ e' ≤ e + n + 1
    ∧ Z.pos M - 2 ^ n < Z.pos m' * 2 ^ (e' - e) ≤ Z.pos M + 2 ^ n.
Proof.
  intros n Hn Hlo Hhi.
  pose proof (digits2_pos_bounds M) as [HMlo HMhi].
  assert (Hpn : 0 < 2 ^ n) by (apply Z.pow_pos_nonneg; lia).
  assert (HD : Z.pos (digits2_pos M) = n + 53) by lia.
  rewrite HD in HMlo, HMhi.
  replace (n + 53 - 1) with (52 + n) in HMlo by lia.
  replace (n + 53) with (53 + n) in HMhi by lia.
  rewrite Z.pow_add_r in HMlo, HMhi by lia.
  set (m0 := Z.pos M / 2 ^ n).
  assert (Hm0 : m0 * 2 ^ n ≤ Z.pos M < (m0 + 1) * 2 ^ n).
  { subst m0. pose proof (Z.div_mod (Z.pos M) (2 ^ n)) as Hdm.
    pose proof (Z.mod_pos_bound (Z.pos M) (2 ^ n) Hpn). lia. }
  assert (Hm0r : 2 ^ 52 ≤ m0 < 2 ^ 53).
  { split.
    - apply Z.div_le_lower_bound; lia.
    - apply Z.div_lt_upper_bound; lia. }
  unfold binary_round_aux.
  assert (Hshr : shr_fexp prec emax (Z.pos M) e loc_Exact
                 = (SpecFloat.iter_pos shr_1 (Z.to_pos n)
                      {| shr_m := Z.pos M; shr_r := false; shr_s := false |}, e + n)).
  { unfold shr_fexp. simpl Zdigits2. rewrite fexp_free by lia.
    replace (Z.pos (digits2_pos M) + e - 53 - e) with n by lia.
    destruct n as [|pn|pn] eqn:En; try lia. reflexivity. }
  rewrite Hshr.
  set (rec1 := SpecFloat.iter_pos shr_1 (Z.to_pos n) _).
  assert (Hrec1 : shr_m rec1 = m0).
  { subst rec1 m0. rewrite iter_shr_1_m by (simpl; lia). simpl.
    by rewrite Z2Pos.id by lia. }
  set (m1 := round_nearest_even (shr_m rec1) (loc_of_shr_record rec1)).
  assert (Hm1 : m1 = m0 ∨ m1 = m0 + 1).
  { subst m1. rewrite <- Hrec1. apply round_nearest_even_near. }
  change (2 ^ 52) with 4503599627370496 in *.
  change (2 ^ 53) with 9007199254740992 in *.
  destruct (Z.lt_ge_cases m1 9007199254740992) as [Hsmall|Hbig].
  - destruct m1 as [|p1|p1] eqn:Ep1; try lia.
    assert (Hd1 : Z.pos (digits2_pos p1) = 53).
    { apply digits2_pos_unique.
      change (2 ^ (53 - 1)) with 4503599627370496.
      change (2 ^ 53) with 9007199254740992. lia. }
    rewrite shr_fexp_none by (done || lia). simpl.
    unfold emax, prec. destruct (Z.leb_spec (e + n) (1024 - 53)); [|lia].
    exists p1, (e + n). split; [done|]. split; [lia|].
    replace (e + n - e) with n by lia. nia.
  - assert (Hm1' : m1 = 9007199254740992) by lia.
    rewrite Hm1'.
    assert (Hs2 : shr_fexp prec emax 9007199254740992 (e + n) loc_Exact
                  = ({| shr_m := 4503599627370496; shr_r := false; shr_s := false |},
                     e + n + 1)).
    { unfold shr_fexp. change (Zdigits2 9007199254740992) with 54.
      rewrite fexp_free by lia.
      replace (54 + (e + n) - 53 - (e + n)) with 1 by lia. reflexivity. }
    rewrite Hs2. simpl.
    unfold emax, prec. destruct (Z.leb_spec (e + n + 1) (1024 - 53)); [|lia].
    eexists _, (e + n + 1). split; [done|]. split; [lia|].
    replace (e + n + 1 - e) with (1 + n) by lia.
    rewrite Z.pow_add_r by lia. change (2 ^ 1) with 2. nia.
Qed.

(** Shifting left by [k] bits multiplies by [2^k]. *)
Lemma iter_xO p k : Z.pos (Pos.iter xO p k) = Z.pos p * 2 ^ Z.pos k.
Proof.
  induction k as [|k IH] using Pos.peano_ind.
  - simpl. lia.
  - rewrite Pos.iter_succ, Pos2Z.inj_succ, Z.pow_succ_r by lia.
    change (Z.pos (Pos.iter xO p k)~0) with (2 * Z.pos (Pos.iter xO p k)). lia.
Qed.

(** The double that holds the integer [s]: its mantissa is [s] shifted to
    53 bits. *)
Lemma to_b64_Int s :
  0 < s < 2 ^ 53 →
  ∃ (P : positive) (a : Z),
    to_b64 (Int s) = S754_finite false P (- a)
    ∧ 0 ≤ a ≤ 52 ∧ Z.pos P = s * 2 ^ a ∧ 2 ^ 52 ≤ Z.pos P < 2 ^ 53
    ∧ (s < 2 ^ 50 → 3 ≤ a).
Proof.
  intros [Hs0 Hs]. destruct s as [|p|p]; try lia.
  unfold to_b64, binary_normalize, binary_round.
  pose proof (digits2_pos_bounds p) as [Hlo Hhi].
  set (d := Z.pos (digits2_pos p)) in *.
  assert (Hd : 1 ≤ d ≤ 53).
  { split; [subst d; lia|].
    destruct (Z.le_gt_cases d 53); [done|].
    assert (2 ^ 53 ≤ 2 ^ (d - 1)) by (apply Z.pow_le_mono_r; lia). lia. }
  replace (d + 0) with d by lia. rewrite fexp_free by lia.
  assert (Hpow : 2 ^ (d - 1) * 2 ^ (53 - d) = 2 ^ 52)
    by (rewrite <- Z.pow_add_r by lia; f_equal; lia).
  assert (Hpow' : 2 ^ d * 2 ^ (53 - d) = 2 ^ 53)
    by (rewrite <- Z.pow_add_r by lia; f_equal; lia).
  assert (Hpa : 0 < 2 ^ (53 - d)) by (apply Z.pow_pos_nonneg; lia).
  assert (Hlate : Z.pos p < 2 ^ 50 → 3 ≤ 53 - d).
  { intros Hp. destruct (Z.le_gt_cases d 50); [lia|].
    assert (2 ^ 50 ≤ 2 ^ (d - 1)) by (apply Z.pow_le_mono_r; lia). lia. }
  unfold shl_align.
  destruct (d - 53 - 0) as [|k|k] eqn:Ek; try lia.
  - assert (d = 53) by lia. subst d.
    replace (2 ^ (53 - Z.pos (digits2_pos p))) with 1 in *
      by (replace (53 - Z.pos (digits2_pos p)) with 0 by lia; reflexivity).
    rewrite binary_round_aux_exact by lia.
    exists p, 0. split; [done|]. split; [lia|]. split; [simpl; lia|].
    split; [lia|]. intros Hp. specialize (Hlate Hp). lia.
  - assert (Hk : Z.pos k = 53 - d) by lia.
    pose proof (iter_xO p k) as Hiter. rewrite Hk in Hiter.
    rewrite binary_round_aux_exact.
    + exists (Pos.iter xO p k), (53 - d).
      split; [f_equal; lia|]. split; [lia|]. split; [done|].
      split; [nia | done].
    + apply digits2_pos_unique. change (53 - 1) with 52. nia.
    + lia.
Qed.

(** The product of an integer and a double of 53-bit mantissa [K]: the
    result is one of the two doubles around the exact product. *)
Lemma mul_Int_faithful s (K : positive) ek :
  0 < s < 2 ^ 53 → Z.pos (digits2_pos K) = 53 → -1000 ≤ ek ≤ 800 →
  ∃ (m' : positive) (e' a n P : Z),
    SFmul prec emax (to_b64 (Int s)) (S754_finite false K ek) = S754_finite false m' e'
    ∧ 0 ≤ a ≤ 52 ∧ P = s * 2 ^ a ∧ 2 ^ 52 ≤ P < 2 ^ 53 ∧ (s < 2 ^ 50 → 3 ≤ a)
    ∧ 52 ≤ n ≤ 53
    ∧ ek - a + n ≤ e' ≤ ek - a + n + 1
    ∧ P * Z.pos K - 2 ^ n < Z.pos m' * 2 ^ (e' - (ek - a)) ≤ P * Z.pos K + 2 ^ n.
Proof.
  intros Hs HK Hek.
  destruct (to_b64_Int s Hs) as (P & a & -> & Ha & HP & HPr & Hlate).
  unfold SFmul. simpl xorb.
  pose proof (digits2_pos_bounds K) as HKr. rewrite HK in HKr.
  change (2 ^ (53 - 1)) with (2 ^ 52) in HKr.
  set (M := (P * K)%positive).
  assert (HM : Z.pos M = Z.pos P * Z.pos K) by (subst M; lia).
  assert (HMr : 2 ^ 104 ≤ Z.pos M < 2 ^ 106).
  { rewrite HM. change (2 ^ 104) with (2 ^ 52 * 2 ^ 52).
    change (2 ^ 106) with (2 ^ 53 * 2 ^ 53). nia. }
  assert (HD : Z.pos (digits2_pos M) = 105 ∨ Z.pos (digits2_pos M) = 106).
  { destruct (Z.lt_ge_cases (Z.pos M) (2 ^ 105)).
    - left. apply digits2_pos_unique. change (105 - 1) with 104. lia.
    - right. apply digits2_pos_unique. change (106 - 1) with 105. lia. }
  destruct (binary_round_aux_faithful M (- a + ek)) as (m' & e' & Hr & He' & Hval);
    [lia..|].
  exists m', e', a, (Z.pos (digits2_pos M) - 53), (Z.pos P).
  rewrite Hr. split; [done|]. split; [done|]. split; [done|]. split; [done|].
  split; [done|]. split; [lia|]. split; [lia|].
  replace (ek - a) with (- a + ek) by lia. rewrite <- HM. done.
Qed.

(** [Math.round] of a double of negative exponent. *)
Lemma Math_round_of_b64 (m : positive) e :
  e < 0 →
  Math_round (of_b64 (S754_finite false m e))
  = Int ((2 * Z.pos m + 2 ^ (- e)) / 2 ^ (- e + 1)).
Proof.
  intros He. unfold of_b64, integral_value.
  destruct (Z.leb_spec 0 e); [lia|].
  assert (Hp : 0 < 2 ^ (- e)) by (apply Z.pow_pos_nonneg; lia).
  assert (Hsucc : 2 ^ (- e + 1) = 2 * 2 ^ (- e)).
  { replace (- e + 1) with (Z.succ (- e)) by lia. by rewrite Z.pow_succ_r by lia. }
  destruct (Z.eqb_spec (Z.pos m mod 2 ^ (- e)) 0) as [Hdiv|Hdiv].
  - simpl Math_round. f_equal. rewrite Hsucc.
    apply Z.mod_divide in Hdiv as [z Hz]; [|lia]. rewrite Hz.
    rewrite Z.div_mul by lia.
    apply (Z.div_unique _ _ _ (2 ^ (- e))); lia.
  - simpl Math_round. destruct (Z.leb_spec 0 e); [lia|]. reflexivity.
Qed.

(** *** The default rate

    [8 / 100] as a double, and the tax at that rate: the exact tax is a
    multiple of 1/25, never half a cent, and the rounding error of the
    product is far below 1/50 for every subtotal below [2^50]. *)
Lemma eight_percent :
  div (Int 8) (Int 100) = Dbl (S754_finite false 5764607523034235 (-56)).
Proof. by vm_compute. Qed.

(** The exact tax at 8 percent, in integers. *)
Lemma tax_exact_8 s : Server.tax_exact s 8 = (4 * s + 25) / 50.
Proof.
  unfold Server.tax_exact, Server.round_half_up, Qfloor. simpl.
  change (Z.pos (1 * 1 * 100 * 2)) with (50 * 4).
  change (Z.pos (1 * 1 * 100)) with 100.
  replace (s * 8 * 1 * 2 + 1 * 100) with ((4 * s + 25) * 4) by lia.
  by rewrite Z.div_mul_cancel_r by lia.
Qed.

Lemma tax_at_8_percent s :
  0 ≤ s < 2 ^ 50 →
  Math_round (mul (Int s) (div (Int 8) (Int 100))) = Int (Server.tax_exact s 8).
Proof.
  intros [Hs0 Hs]. rewrite tax_exact_8, eight_percent.
  destruct (Z.eq_dec s 0) as [->|Hne]; [by vm_compute|].
  unfold mul.
  change (to_b64 (Dbl ?x)) with x.
  assert (Hs53 : 0 < s < 2 ^ 53).
  { split; [lia|]. change (2 ^ 53) with (2 ^ 50 * 8). lia. }
  destruct (mul_Int_faithful s 5764607523034235 (-56) Hs53)
    as (m' & e' & a & n & P & Hmul & Ha & HP & HPr & Hlate & Hn & He' & Hval);
    [by vm_compute | lia |].
  rewrite Hmul. specialize (Hlate Hs).
  rewrite Math_round_of_b64 by lia. f_equal.
  set (T := (4 * s + 25) / 50).
  assert (HT : 50 * T - 24 ≤ 4 * s ≤ 50 * T + 24).
  { pose proof (Z.div_mod (4 * s + 25) 50) as Hdm.
    pose proof (Z.mod_pos_bound (4 * s + 25) 50). fold T in Hdm. lia. }
  set (A := 2 ^ a) in *.
  assert (HA : 8 ≤ A).
  { subst A. change 8 with (2 ^ 3). apply Z.pow_le_mono_r; lia. }
  set (u := 2 ^ (- e')).
  set (W := 2 ^ (e' - (-56 - a))) in *.
  assert (Hu : 0 < u) by (apply Z.pow_pos_nonneg; lia).
  assert (HW : 0 < W) by (apply Z.pow_pos_nonneg; lia).
  assert (HQ : u * W = 2 ^ 56 * A).
  { subst u W A. rewrite <- !Z.pow_add_r by lia. f_equal. lia. }
  assert (HN : 2 ^ n ≤ 2 ^ 53) by (apply Z.pow_le_mono_r; lia).
  assert (Hsucc : 2 ^ (- e' + 1) = 2 * u).
  { subst u. replace (- e' + 1) with (Z.succ (- e')) by lia.
    by rewrite Z.pow_succ_r by lia. }
  rewrite Hsucc.
  change (2 ^ 52) with 4503599627370496 in *.
  change (2 ^ 53) with 9007199254740992 in *.
  change (2 ^ 56) with 72057594037927936 in *.
  set (R := Z.pos m' * W) in *.
  generalize dependent (2 ^ n). intros N Hval HN.
  assert (Hlow : (2 * T - 1) * (u * W) ≤ 2 * R).
  { rewrite HQ. nia. }
  assert (Hupp : 2 * R < (2 * T + 1) * (u * W)).
  { rewrite HQ. nia. }
  assert (Hlow' : (2 * T - 1) * u ≤ 2 * Z.pos m').
  { apply (Z.mul_le_mono_pos_r _ _ W HW). subst R. lia. }
  assert (Hupp' : 2 * Z.pos m' < (2 * T + 1) * u).
  { apply (Z.mul_lt_mono_pos_r W _ _ HW). subst R. lia. }
  symmetry. apply (Z.div_unique _ _ _ (2 * Z.pos m' + u - 2 * u * T)); lia.
Qed.

End NumFacts.

(** ** The server *)

Module ServerProofs.
Import Server.

(** *** Sanitization, line by line *)

(** A line of the price book in a positive integer quantity is let
    through, with the price of the book. *)
Lemma sanitizeLine_ok pb l c q :
  pb !! name l = Some c → qty l = VNum (Int q) → 0 < q →
  sanitizeLine pb l
  = inr {| item_name := name l; item_qty := q; priceCents := Number (Int c) |}.
Proof.
  intros Hc Hq Hpos. unfold sanitizeLine, lookup. rewrite Hc, Hq.
  destruct (Z.leb_spec q 0); [lia | reflexivity].
Qed.

(** What a line that was let through looks like. *)
Lemma sanitizeLine_inv pb l i :
  sanitizeLine pb l = inr i →
  item_name i = name l ∧ qty l = VNum (Int (item_qty i)) ∧ 0 < item_qty i
  ∧ priceCents i = lookup pb (name l) ∧ lookup pb (name l) ≠ Undefined.
Proof.
  unfold sanitizeLine. intros H.
  destruct (lookup pb (name l)) eqn:Hl; [discriminate | |];
    (destruct (qty l) as [| | |[q|x]| | |]; try discriminate;
     destruct (Z.leb_spec q 0); [discriminate|];
     injection H as <-; simpl; repeat split; try done; lia).
Qed.

(** The two ways in which a line is refused. *)
Lemma sanitizeLine_unknown pb l :
  lookup pb (name l) = Undefined →
  sanitizeLine pb l = inl (Error ("Unknown item: " +:+ name l)).
Proof. unfold sanitizeLine. by intros ->. Qed.

Lemma sanitizeLine_bad_qty pb l :
  lookup pb (name l) ≠ Undefined → bad_quantity (qty l) →
  sanitizeLine pb l = inl (Error ("Bad qty for " +:+ name l)).
Proof.
  unfold sanitizeLine. intros Hl Hq.
  destruct (lookup pb (name l)); [done | |];
    (inversion Hq as [Heq|q Hneg Heq|x Heq|Heq]; try reflexivity;
     destruct (Z.leb_spec q 0); [reflexivity | lia]).
Qed.

(** A sanitized cart is sanitized line by line. *)
Lemma sanitizeCart_inv pb cart items :
  sanitizeCart pb cart = inr items →
  Forall2 (λ l i, sanitizeLine pb l = inr i) cart items.
Proof.
  revert items. induction cart as [|l rest IH]; intros items; simpl.
  - intros [= <-]. constructor.
  - destruct (sanitizeLine pb l) as [e|i] eqn:Hl; simpl; [discriminate|].
    destruct (sanitizeCart pb rest) as [e|items'] eqn:Hr; simpl; [discriminate|].
    intros [= <-]. constructor; auto.
Qed.

(** The cart fails at its first line that fails: the lines before it were
    sanitized, the lines after it are not looked at. *)
Lemma sanitizeCart_first_failure pb before l after e :
  Forall (sanitizes pb) before →
  sanitizeLine pb l = inl e →
  sanitizeCart pb (before ++ l :: after) = inl e.
Proof.
  intros Hb Hl. induction Hb as [|l' before [i Hi] _ IH]; simpl.
  - by rewrite Hl.
  - by rewrite Hi, IH.
Qed.

(** *** Validation of the cart entries *)

(** Validation of an entry reads its name and its quantity, nothing else. *)
Lemma z_cart_line_entry o n q :
  entry_names o n q → 0 < q →
  z_cart_line (VObj o) = Some {| name := n; qty := VNum (Int q) |}.
Proof.
  intros [Hn Hq] Hpos. unfold z_cart_line, field. rewrite Hn, Hq. simpl.
  destruct (Z.ltb_spec 0 q); [reflexivity | lia].
Qed.

(** C2. For every cart whose entries all name an item of the price book in
    a quantity that is a positive integer, validation and sanitization
    succeed and give one line per entry, with the entry's name and
    quantity and with the unit price of the price book; whatever else the
    entry carries (a client-side price or total) has no part in it. *)
Theorem sanitizeCart_trusted_prices (pb : gmap string Z) (raw : list (gmap string value)) :
  Forall (λ o, ∃ n q c, entry_names o n q ∧ 0 < q ∧ pb !! n = Some c) raw →
  ∃ cart items,
    z_array z_cart_line (VArr (VObj <$> raw)) = Some cart ∧
    sanitizeCart pb cart = inr items ∧
    Forall2 (λ o i, entry_names o (item_name i) (item_qty i) ∧
                    ∃ c, pb !! item_name i = Some c ∧ priceCents i = Number (Int c))
            raw items.
Proof.
  induction 1 as [|o raw (n & q & c & Hnames & Hpos & Hc) _ IH].
  - exists [], []. repeat split; constructor.
  - destruct IH as (cart & items & Hval & Hsan & Hall).
    exists ({| name := n; qty := VNum (Int q) |} :: cart),
           ({| item_name := n; item_qty := q; priceCents := Number (Int c) |} :: items).
    unfold z_array in Hval |- *. rewrite fmap_cons. split; [|split].
    + apply mapM_Some_2. constructor.
      * by apply z_cart_line_entry.
      * by apply mapM_Some_1.
    + simpl. rewrite (sanitizeLine_ok pb _ c q) by done. simpl. by rewrite Hsan.
    + constructor; [|done]. simpl. eauto.
Qed.

(** C10. When sanitization succeeds its output has the length and the
    order of the cart, and the i-th output line carries the name and the
    quantity of the i-th cart line, with what the price book gives for that
    name as its price. *)
Theorem sanitizeCart_preserves_lines (pb : gmap string Z) (cart : list cart_line)
        (items : list item) :
  sanitizeCart pb cart = inr items →
  length items = length cart ∧
  ∀ (i : nat) (l : cart_line), cart !! i = Some l →
    ∃ it, items !! i = Some it ∧ item_name it = name l
          ∧ qty l = VNum (Int (item_qty it))
          ∧ priceCents it = lookup pb (name l).
Proof.
  intros H. apply sanitizeCart_inv in H. split.
  - symmetry. by eapply Forall2_length.
  - intros i l Hl.
    destruct (Forall2_lookup_l _ _ _ _ _ H Hl) as (it & Hit & Hline).
    apply sanitizeLine_inv in Hline as (Hn & Hq & _ & Hp & _).
    eauto 6.
Qed.

(** *** Totals *)

(** Sums of prices that are not negative. *)
Lemma lines_total_nonneg items :
  Forall (λ i, ∃ c, priceCents i = Number (Int c) ∧ 0 ≤ c ∧ 0 < item_qty i) items →
  0 ≤ lines_total items.
Proof.
  induction 1 as [|i items (c & Hc & Hpos & Hq) _ IH]; simpl; [lia|].
  unfold line_total. rewrite Hc. nia.
Qed.

(** Within the safe range [sumCents] is the sum in [Z]. *)
Lemma sumCents_priced items :
  Forall (λ i, ∃ c, priceCents i = Number (Int c) ∧ 0 ≤ c ∧ 0 < item_qty i) items →
  lines_total items ≤ 2 ^ 53 →
  sumCents items = Int (lines_total items).
Proof.
  unfold sumCents. intros H Hmax.
  enough (G : ∀ a, 0 ≤ a → a + lines_total items ≤ 2 ^ 53 →
              fold_left
                (λ s i, add s (mul (to_number (priceCents i)) (Int (item_qty i))))
                items (Int a) = Int (a + lines_total items)).
  { rewrite G; [done | lia | lia]. }
  clear Hmax.
  induction H as [|i items (c & Hc & Hpos & Hq) Hrest IH]; intros a Ha Hmax; simpl.
  - f_equal. lia.
  - pose proof (lines_total_nonneg items Hrest) as Hnn.
    simpl in Hmax. unfold line_total in Hmax |- *. rewrite Hc in Hmax |- *.
    simpl. rewrite (NumFacts.of_Z_safe (c * item_qty i)) by nia.
    rewrite (NumFacts.of_Z_safe (a + c * item_qty i)) by nia.
    rewrite IH by nia. f_equal. lia.
Qed.

(** The items of a cart of names of the price book carry its prices. *)
Lemma sanitizeCart_own_prices pb cart items :
  sanitizeCart pb cart = inr items →
  Forall (λ l, ∃ c, pb !! name l = Some c ∧ 0 ≤ c) cart →
  Forall (λ i, ∃ c, priceCents i = Number (Int c) ∧ 0 ≤ c ∧ 0 < item_qty i) items.
Proof.
  intros H. apply sanitizeCart_inv in H.
  induction H as [|l i cart items Hl _ IH]; intros Hown; [constructor|].
  apply Forall_cons in Hown as [(c & Hc & Hpos) Hown]. constructor; [|auto].
  apply sanitizeLine_inv in Hl as (_ & _ & Hq & -> & _).
  unfold lookup. rewrite Hc. eauto.
Qed.

(** C3. For a sanitized cart of items of the price book, whose prices are
    not negative, a fulfillment kind and a fee of at least 0, the subtotal
    being within the integers that binary64 holds exactly: the subtotal is
    the sum of unit price times quantity over the lines, plus the fee for a
    delivery; the total is the subtotal plus the tax; the tax is 0 at the
    rate 0; at a rate above 0 it is [Math.round] of the binary64 product
    [subtotal * (rate / 100)], that is the exact value of that double
    rounded half up; at the default rate of 8 percent this is the exact
    product [subtotal × 8 / 100] rounded half up, for every subtotal below
    [2^50]; and the delivery example gives 898, 72 and 970. *)
Theorem totals_of_sanitized_cart (cfg : config) (pb : gmap string Z)
        (cart : list cart_line) (items : list item) (is_delivery : bool) (fee : Z) :
  sanitizeCart pb cart = inr items →
  Forall (λ l, ∃ c, pb !! name l = Some c ∧ 0 ≤ c) cart →
  DELIVERY_FEE_CENTS cfg = Int fee → 0 ≤ fee →
  lines_total items + (if is_delivery then fee else 0) ≤ 2 ^ 53 →
  let base := lines_total items + (if is_delivery then fee else 0) in
  let product := mul (Int base) (div (TAX_RATE_PERCENT cfg) (Int 100)) in
  subtotalCents cfg is_delivery items = Int base
  ∧ totalCents cfg is_delivery items = add (Int base) (taxCents cfg (Int base))
  ∧ (TAX_RATE_PERCENT cfg = Int 0 →
       taxCents cfg (Int base) = Int 0 ∧ totalCents cfg is_delivery items = Int base)
  ∧ (gt0 (TAX_RATE_PERCENT cfg) = true →
       taxCents cfg (Int base) = Math_round product
       ∧ ∀ q, to_Q product = Some q →
           taxCents cfg (Int base) = Int (round_half_up q)
           ∧ totalCents cfg is_delivery items = of_Z (base + round_half_up q))
  ∧ (TAX_RATE_PERCENT cfg = Int 8 → base < 2 ^ 50 →
       taxCents cfg (Int base) = Int (tax_exact base 8)
       ∧ totalCents cfg is_delivery items = Int (base + tax_exact base 8))
  ∧ (subtotalCents example_config true example_items = Int 898
     ∧ taxCents example_config (Int 898) = Int 72
     ∧ totalCents example_config true example_items = Int 970).
Proof.
  intros Hsan Hown Hfee Hpos Hmax base product.
  pose proof (sanitizeCart_own_prices pb cart items Hsan Hown) as Hitems.
  pose proof (lines_total_nonneg items Hitems) as Hnn.
  assert (Hbase : 0 ≤ base ≤ 2 ^ 53) by (subst base; destruct is_delivery; lia).
  assert (Hsub : subtotalCents cfg is_delivery items = Int base).
  { unfold subtotalCents.
    rewrite (sumCents_priced items) by (done || destruct is_delivery; lia).
    rewrite Hfee. subst base.
    destruct is_delivery; simpl; apply NumFacts.of_Z_safe; lia. }
  assert (Htot : totalCents cfg is_delivery items
                 = add (Int base) (taxCents cfg (Int base))).
  { unfold totalCents. by rewrite Hsub. }
  split; [done|]. split; [done|]. split; [|split; [|split]].
  - intros Hrate. rewrite Htot. unfold taxCents. rewrite Hrate. simpl.
    split; [done|]. rewrite Z.add_0_r. apply NumFacts.of_Z_safe. lia.
  - intros Hrate. unfold taxCents at 1. rewrite Hrate. split; [done|].
    intros q Hq. rewrite Htot. unfold taxCents. rewrite Hrate.
    fold product. by rewrite (NumFacts.Math_round_half_up product q).
  - intros Hrate Hrange.
    assert (Htax : taxCents cfg (Int base) = Int (tax_exact base 8)).
    { unfold taxCents. rewrite Hrate. simpl gt0. cbv iota.
      apply NumFacts.tax_at_8_percent. lia. }
    split; [done|]. rewrite Htot, Htax. simpl.
    apply NumFacts.of_Z_safe. rewrite NumFacts.tax_exact_8.
    assert (0 ≤ (4 * base + 25) / 50 ≤ base + 1).
    { split; [apply Z.div_pos; lia|].
      apply Z.div_le_upper_bound; lia. }
    change (2 ^ 53) with (2 ^ 50 * 8). lia.
  - by vm_compute.
Qed.

(** *** Runs of the handler *)

(** Membership in a trace that is written out: one case for each event. *)
Ltac in_trace H :=
  repeat (apply elem_of_cons in H as [?|H]; [simplify_eq; try done|]);
  try (by apply elem_of_nil in H).

(** The runs of the handler have the three shapes of [run_shape]. *)
Lemma run_checkout_shape is_email cfg req w n :
  run_shape w n (run w n (checkout is_email cfg req)).1
                (run w n (checkout is_email cfg req)).2.
Proof.
  unfold checkout.
  destruct (CheckoutBody is_email req) as [body|]; simpl; [|constructor].
  destruct (sanitizeCart _ _) as [e|items]; simpl; [constructor|].
  match goal with |- context [order_service w ?p] => set (op := p) end.
  destruct (order_service w op) as [e|[] oj] eqn:Ho; simpl.
  - rewrite <- Ho. by constructor; [| |left; rewrite Ho].
  - destruct (created_order oj) as [orderId|] eqn:Hid; simpl.
    + match goal with |- context [payment_service w ?p] => set (pp := p) end.
      destruct (payment_service w pp) as [e|[] pj] eqn:Hp; simpl;
        rewrite <- Hp; constructor; rewrite ?Hp; simpl; eauto; done.
    + rewrite <- Ho. constructor; [done..|]. right. rewrite Ho. eauto.
  - rewrite <- Ho. by constructor; [| |left; rewrite Ho].
Qed.

(** A request that validation and sanitization accept makes the order
    call first, with the assembled order and the first UUID drawn. *)
Lemma run_checkout_accepted is_email cfg req body items w n :
  CheckoutBody is_email req = Some body →
  sanitizeCart (PRICE_BOOK cfg) (cart body) = inr items →
  ∃ t r, run w n (checkout is_email cfg req)
         = (Drawn (uuid w n)
            :: OrderCall {| order_idempotency_key := uuid w n;
                            order_of := orderObj cfg body items |}
                         (order_service w {| order_idempotency_key := uuid w n;
                                             order_of := orderObj cfg body items |})
            :: t, r).
Proof.
  intros Hb Hs. unfold checkout. rewrite Hb, Hs. simpl.
  destruct (run w (S n) _) as [t r]. eauto.
Qed.

(** C1. In every run of the handler a payment call comes after an order
    call that was answered with success; and when the order call is not
    answered with success, no payment call is made and the response is a
    failure. *)
Theorem payment_only_after_order_success (is_email : string → bool) (cfg : config)
        (req : value) (w : world) (n : nat) :
  let t := (run w n (checkout is_email cfg req)).1 in
  let r := (run w n (checkout is_email cfg req)).2 in
  (∀ i pp pa, t !! i = Some (PaymentCall pp pa) →
     ∃ j op oj, (j < i)%nat ∧ t !! j = Some (OrderCall op (Responded true oj)))
  ∧ (∀ op oa, OrderCall op oa ∈ t → succeeded oa = false →
       payment_calls t = [] ∧ ∃ e, r = Failure e).
Proof.
  intros t r. subst t r.
  destruct (run_checkout_shape is_email cfg req w n)
    as [e|op oa e Hk Ho Hfail|op oj pp pa r Hk1 Hk2 Ho Hp Hr]; split.
  - intros i pp pa Hi. by rewrite lookup_nil in Hi.
  - intros op oa Hin. by apply elem_of_nil in Hin.
  - intros [|[|[|i]]] pp pa Hi; simplify_eq/=.
  - intros op' oa' Hin Hs. split; [done | eauto].
  - intros [|[|[|[|i]]]] pp' pa' Hi; simplify_eq/=.
    exists 1%nat, op, oj. split; [lia | done].
  - intros op' oa' Hin Hs. in_trace Hin.
Qed.

(** Each call carries the UUID drawn for it. *)
Lemma run_shape_keys w n t r : run_shape w n t r → keys t = draws t.
Proof. destruct 1; simpl; congruence. Qed.

(** C8. The idempotency keys that a checkout sends are the UUIDs it drew
    from [crypto.randomUUID()], one draw for each remote call and in the
    order of the calls: the order key is the first draw, the payment key
    the second.  So when the generator does not repeat itself, the keys
    of two attempts, and the two keys of one attempt, are all distinct,
    whatever the carts are. *)
Theorem idempotency_keys_fresh (is_email : string → bool) (cfg1 cfg2 : config)
        (req1 req2 : value) (w1 w2 : world) (n1 n2 : nat) :
  let t1 := (run w1 n1 (checkout is_email cfg1 req1)).1 in
  let t2 := (run w2 n2 (checkout is_email cfg2 req2)).1 in
  NoDup (draws t1 ++ draws t2) →
  keys t1 = draws t1 ∧ keys t2 = draws t2
  ∧ (∀ op oa, OrderCall op oa ∈ t1 → order_idempotency_key op = uuid w1 n1)
  ∧ (∀ pp pa, PaymentCall pp pa ∈ t1 → pay_idempotency_key pp = uuid w1 (S n1))
  ∧ NoDup (keys t1 ++ keys t2).
Proof.
  intros t1 t2 Hfresh.
  assert (H1 : keys t1 = draws t1)
    by (eapply run_shape_keys, run_checkout_shape).
  assert (H2 : keys t2 = draws t2)
    by (eapply run_shape_keys, run_checkout_shape).
  split; [done|]. split; [done|]. rewrite H1, H2.
  split; [|split; [|done]]; subst t1;
    destruct (run_checkout_shape is_email cfg1 req1 w1 n1);
    intros p a Hin; in_trace Hin.
Qed.

(** A run draws at most two UUIDs, the next ones of its world. *)
Lemma run_shape_draws w n t r :
  run_shape w n t r →
  (length (draws t) ≤ 2)%nat ∧ draws t = uuid w <$> seq n (length (draws t)).
Proof. destruct 1; simpl; split; (lia || reflexivity). Qed.

(** Attempts that draw one after the other from a generator that does not
    repeat itself draw distinct UUIDs. *)
Lemma sequential_attempts_draw_fresh is_email cfg1 cfg2 req1 req2 w n1 n2 :
  Inj (=) (=) (uuid w) → (n1 + 2 ≤ n2)%nat →
  NoDup (draws (run w n1 (checkout is_email cfg1 req1)).1
         ++ draws (run w n2 (checkout is_email cfg2 req2)).1).
Proof.
  intros Hinj Hn.
  destruct (run_shape_draws _ _ _ _ (run_checkout_shape is_email cfg1 req1 w n1))
    as [Hl1 ->].
  destruct (run_shape_draws _ _ _ _ (run_checkout_shape is_email cfg2 req2 w n2))
    as [Hl2 ->].
  rewrite <- fmap_app. apply (NoDup_fmap_2 _).
  apply NoDup_app. split; [apply NoDup_seq|]. split; [|apply NoDup_seq].
  intros i Hi1 Hi2. apply elem_of_seq in Hi1, Hi2. lia.
Qed.

(** C4. A delivery request without an address that validation and
    sanitization accept does not fail before the remote order service:
    the handler draws the order key and submits the order, whose one
    fulfillment block is a delivery block without [delivery_address]. *)
Theorem delivery_without_address_is_submitted (is_email : string → bool)
        (cfg : config) (req : value) (body : checkout_body) (items : list item)
        (w : world) (n : nat) :
  CheckoutBody is_email req = Some body →
  fulfillment body = delivery →
  address body = None →
  sanitizeCart (PRICE_BOOK cfg) (cart body) = inr items →
  ∃ op oa t r,
    run w n (checkout is_email cfg req) = (Drawn (uuid w n) :: OrderCall op oa :: t, r)
    ∧ fulfillments (order_of op)
      = [ {| type := "DELIVERY"; state := "PROPOSED";
             pickup_details := None;
             delivery_details :=
               Some {| delivery_recipient := recipient_of (contact body);
                       delivery_schedule_type := "ASAP";
                       delivery_address := None |} |} ].
Proof.
  intros Hb Hf Ha Hs.
  destruct (run_checkout_accepted is_email cfg req body items w n Hb Hs)
    as (t & r & Hrun).
  eexists _, _, t, r. split; [exact Hrun|].
  simpl. unfold fulfillment_of, isDelivery. by rewrite Hf, Ha.
Qed.

(** C7. The order that a valid request submits has exactly one
    fulfillment block.  For pickup it is a pickup block for the contact:
    SCHEDULED when the pickup time is a string that is not empty, ASAP
    when it is absent or the empty string, with [pickup_at] what was
    supplied in either case.  For delivery it is a delivery block for the
    contact, always ASAP; a free-text address becomes
    [{address_line_1: text, country: "US"}]; a structured address keeps
    its first line, locality, district and postal code, and its country
    when that is a string that is not empty, the country being "US" when
    it is absent or the empty string; without an address the block has no
    [delivery_address]. *)
Theorem one_fulfillment_block (is_email : string → bool) (cfg : config)
        (req : value) (body : checkout_body) (items : list item)
        (w : world) (n : nat) :
  CheckoutBody is_email req = Some body →
  sanitizeCart (PRICE_BOOK cfg) (cart body) = inr items →
  ∃ op oa t r f,
    run w n (checkout is_email cfg req) = (Drawn (uuid w n) :: OrderCall op oa :: t, r)
    ∧ fulfillments (order_of op) = [f]
    ∧ match fulfillment body with
      | pickup =>
          type f = "PICKUP" ∧ delivery_details f = None ∧
          ∃ p, pickup_details f = Some p
            ∧ pickup_recipient p = recipient_of (contact body)
            ∧ (∀ time, pickupTime body = Some time → time ≠ "" →
                 pickup_schedule_type p = "SCHEDULED" ∧ pickup_at p = Some time)
            ∧ (pickupTime body = None ∨ pickupTime body = Some "" →
                 pickup_schedule_type p = "ASAP" ∧ pickup_at p = pickupTime body)
      | delivery =>
          type f = "DELIVERY" ∧ pickup_details f = None ∧
          ∃ d, delivery_details f = Some d
            ∧ delivery_recipient d = recipient_of (contact body)
            ∧ delivery_schedule_type d = "ASAP"
            ∧ (∀ text, address body = Some (AddressText text) →
                 delivery_address d
                 = Some {| address_line_1 := text; locality := None;
                           administrative_district_level_1 := None;
                           postal_code := None; country := "US" |})
            ∧ (∀ a, address body = Some (AddressObject a) →
                 ∃ pa, delivery_address d = Some pa
                   ∧ address_line_1 pa = in_address_line_1 a
                   ∧ locality pa = in_locality a
                   ∧ administrative_district_level_1 pa
                     = in_administrative_district_level_1 a
                   ∧ postal_code pa = in_postal_code a
                   ∧ (in_country a = None ∨ in_country a = Some "" →
                        country pa = "US")
                   ∧ (∀ c, in_country a = Some c → c ≠ "" → country pa = c))
            ∧ (address body = None → delivery_address d = None)
      end.
Proof.
  intros Hb Hs.
  destruct (run_checkout_accepted is_email cfg req body items w n Hb Hs)
    as (t & r & Hrun).
  eexists _, _, t, r, _. split; [exact Hrun|]. split; [reflexivity|].
  unfold fulfillment_of, isDelivery.
  destruct (fulfillment body); simpl.
  - split; [done|]. split; [done|]. eexists. split; [done|]. simpl.
    split; [done|]. split.
    + intros time -> Hne. by rewrite bool_decide_eq_false_2.
    + by intros [-> | ->].
  - split; [done|]. split; [done|]. eexists. split; [done|]. simpl.
    split; [done|]. split; [done|]. split; [|split].
    + by intros text ->.
    + intros a ->. eexists. split; [done|]. simpl. repeat split.
      * by intros [-> | ->].
      * intros c -> Hne. by rewrite bool_decide_eq_false_2.
    + by intros ->.
Qed.

(** *** Names that the price book does not have *)

(** A name that neither the price book nor [Object.prototype] has is
    rejected at the first line that carries it, before any call. *)
Lemma unknown_item_rejected is_email cfg req body before l after w n :
  CheckoutBody is_email req = Some body →
  cart body = before ++ l :: after →
  Forall (sanitizes (PRICE_BOOK cfg)) before →
  PRICE_BOOK cfg !! name l = None → name l ∉ Object_prototype →
  run w n (checkout is_email cfg req)
  = ([], Failure (Error ("Unknown item: " +:+ name l))).
Proof.
  intros Hb Hc Hbefore Hnone Hproto. unfold checkout. rewrite Hb, Hc.
  rewrite (sanitizeCart_first_failure _ before l after
             (Error ("Unknown item: " +:+ name l))); [done..|].
  apply sanitizeLine_unknown. unfold lookup. rewrite Hnone.
  by rewrite bool_decide_eq_false_2.
Qed.

(** C5. The name "toString" is not in the price book, yet reading it from
    the price book gives the inherited function: the line is sanitized
    with that function for a price, and the order is submitted. *)
Theorem inherited_name_is_not_rejected :
  defaultPriceBook !! "toString" = None
  ∧ lookup defaultPriceBook "toString" = Inherited "toString"
  ∧ sanitizeCart defaultPriceBook [ {| name := "toString"; qty := VNum (Int 1) |} ]
    = inr [ {| item_name := "toString"; item_qty := 1;
               priceCents := Inherited "toString" |} ]
  ∧ ∃ op oa t r,
      run world_ok 0 (checkout any_email example_config
                        (request [ entry "toString" (VNum (Int 1)) ] []))
      = (Drawn "uuid-0" :: OrderCall op oa :: t, r)
      ∧ (amount_money ∘ fst) <$> head (payment_calls t) = Some NaN.
Proof.
  split; [by vm_compute|]. split; [by vm_compute|]. split; [by vm_compute|].
  eexists _, _, _, _. split; by vm_compute.
Qed.

(** *** Quantities that are not a positive integer *)

(** Validation refuses an entry whose quantity is not a positive integer. *)
Lemma z_cart_line_bad_quantity o :
  bad_quantity (field o "qty") → z_cart_line (VObj o) = None.
Proof.
  intros Hq. unfold z_cart_line.
  destruct (z_string (field o "name")); simpl; [|done].
  inversion Hq as [Heq|q Hneg Heq|x Heq|Heq]; simpl; try done.
  by destruct (Z.ltb_spec 0 q); [lia|].
Qed.

(** C6. A cart entry whose quantity is zero, negative, not an integer or
    missing makes validation reject the request: the handler answers with
    the [ZodError] and makes no call, and sanitization is not reached.
    [sanitizeCart] itself, given such a line whose name it finds and that
    follows lines it lets through, fails with "Bad qty". *)
Theorem bad_quantity_rejected (v : value) :
  bad_quantity v →
  (∀ (is_email : string → bool) (cfg : config) (fields o : gmap string value)
     (entries : list value) (w : world) (n : nat),
     field fields "cart" = VArr entries → VObj o ∈ entries → field o "qty" = v →
     CheckoutBody is_email (VObj fields) = None
     ∧ run w n (checkout is_email cfg (VObj fields)) = ([], Failure ZodError))
  ∧ (∀ (pb : gmap string Z) (before after : list cart_line) (l : cart_line),
       qty l = v → lookup pb (name l) ≠ Undefined → Forall (sanitizes pb) before →
       sanitizeCart pb (before ++ l :: after)
       = inl (Error ("Bad qty for " +:+ name l))).
Proof.
  intros Hv. split.
  - intros is_email cfg fields o entries w n Hcart Hin Hq.
    assert (Hparse : CheckoutBody is_email (VObj fields) = None).
    { unfold CheckoutBody. rewrite Hcart. unfold z_array.
      rewrite (mapM_None_2 z_cart_line entries); [done|].
      apply Exists_exists. exists (VObj o). split; [done|].
      apply z_cart_line_bad_quantity. by rewrite Hq. }
    split; [done|]. unfold checkout. by rewrite Hparse.
  - intros pb before after l Hq Hl Hbefore.
    apply sanitizeCart_first_failure; [done|].
    apply sanitizeLine_bad_qty; [done|]. by rewrite Hq.
Qed.

(** *** The claims at concrete requests *)

(** C1 at a request whose order creation is refused. *)
Lemma payment_only_after_order_success_refused :
  payment_calls (run world_order_refused 0
                   (checkout any_email example_config fries_request)).1 = []
  ∧ ∃ e, (run world_order_refused 0
            (checkout any_email example_config fries_request)).2 = Failure e.
Proof.
  destruct (payment_only_after_order_success any_email example_config
              fries_request world_order_refused 0) as [_ H].
  eapply H.
  - vm_compute. apply elem_of_cons. right. apply elem_of_cons. left. reflexivity.
  - reflexivity.
Defined.

(** C2 at an entry that carries a price and a total of the client's. *)
Lemma sanitizeCart_trusted_prices_tampered :
  ∃ cart items,
    z_array z_cart_line (VArr (VObj <$> [tampered_entry])) = Some cart ∧
    sanitizeCart defaultPriceBook cart = inr items ∧
    Forall2 (λ o i, entry_names o (item_name i) (item_qty i) ∧
                    ∃ c, defaultPriceBook !! item_name i = Some c
                         ∧ priceCents i = Number (Int c))
            [tampered_entry] items.
Proof.
  apply sanitizeCart_trusted_prices. repeat constructor.
  exists "Small Fries", 2, 299.
  split; [split; vm_compute; reflexivity|]. split; [lia | vm_compute; reflexivity].
Defined.

(** C3 at the delivery example. *)
Lemma totals_of_sanitized_cart_example :
  subtotalCents example_config true example_items
  = Int (lines_total example_items + 300).
Proof.
  apply (totals_of_sanitized_cart example_config defaultPriceBook
           [ {| name := "Small Fries"; qty := VNum (Int 2) |} ]
           example_items true 300).
  - vm_compute. reflexivity.
  - repeat constructor. exists 299. split; [vm_compute; reflexivity | lia].
  - reflexivity.
  - lia.
  - vm_compute. discriminate.
Defined.

(** C3 as worded fails: two Water Bottles at 7.25 percent.  The exact
    tax is 14.5, which rounds half up to 15; the double [200 * 0.0725] is
    just below 14.5 and [Math.round] gives 14. *)
Lemma tax_is_not_the_exact_rounding :
  sanitizeCart defaultPriceBook [ {| name := "Water Bottle"; qty := VNum (Int 2) |} ]
  = inr two_water_bottles
  ∧ (∃ q, to_Q (TAX_RATE_PERCENT config_7_25) = Some q ∧ (q == 29 # 4)%Q)
  ∧ subtotalCents config_7_25 false two_water_bottles = Int 200
  ∧ tax_exact 200 (29 # 4) = 15
  ∧ taxCents config_7_25 (Int 200) = Int 14
  ∧ taxCents config_7_25 (Int 200) ≠ Int (tax_exact 200 (29 # 4))
  ∧ totalCents config_7_25 false two_water_bottles = Int 214.
Proof.
  split; [by vm_compute|]. split.
  - eexists. split; [by vm_compute|]. by vm_compute.
  - repeat split; by vm_compute.
Qed.

(** C4 at a delivery request without address. *)
Lemma delivery_without_address_is_submitted_example :
  ∃ op oa t r,
    run world_ok 0 (checkout any_email example_config delivery_request_without_address)
    = (Drawn (uuid world_ok 0) :: OrderCall op oa :: t, r)
    ∧ ∃ d, delivery_details <$> head (fulfillments (order_of op)) = Some (Some d)
           ∧ delivery_address d = None.
Proof.
  destruct (delivery_without_address_is_submitted any_email example_config
              delivery_request_without_address
              {| cart := [ {| name := "Small Fries"; qty := VNum (Int 2) |} ];
                 contact := {| contact_name := "Amina";
                               contact_phone := "7165550100";
                               contact_email := None |};
                 pickupTime := None; fulfillment := delivery; address := None;
                 paymentToken := "cnon:card-nonce-ok" |}
              example_items world_ok 0)
    as (op & oa & t & r & Hrun & Hf).
  - vm_compute. reflexivity.
  - reflexivity.
  - reflexivity.
  - vm_compute. reflexivity.
  - exists op, oa, t, r. split; [exact Hrun|]. rewrite Hf. simpl. eauto.
Defined.

(** C4 as worded fails: the delivery request without address is accepted
    by validation, its order is submitted without [delivery_address], and
    the checkout succeeds. *)
Lemma delivery_without_address_reaches_order_service :
  ∃ body op oa d,
    CheckoutBody any_email delivery_request_without_address = Some body
    ∧ fulfillment body = delivery ∧ address body = None
    ∧ run world_ok 0 (checkout any_email example_config delivery_request_without_address)
      = ([ Drawn "uuid-0"; OrderCall op oa;
           Drawn "uuid-1";
           PaymentCall {| pay_idempotency_key := "uuid-1";
                          source_id := "cnon:card-nonce-ok";
                          pay_location_id := Some "LOCATION";
                          amount_money := Int 970;
                          order_id := Some "ORDER-1" |}
                       (payment_service world_ok
                          {| pay_idempotency_key := "uuid-1";
                             source_id := "cnon:card-nonce-ok";
                             pay_location_id := Some "LOCATION";
                             amount_money := Int 970;
                             order_id := Some "ORDER-1" |}) ],
         Success (Some "ORDER-1") (Some "PAYMENT-1"))
    ∧ delivery_details <$> head (fulfillments (order_of op)) = Some (Some d)
    ∧ delivery_address d = None.
Proof.
  eexists _, _, _, _. repeat split; by vm_compute.
Qed.

(** C6 at the quantity zero. *)
Lemma bad_quantity_rejected_zero :
  CheckoutBody any_email zero_quantity_request = None
  ∧ run world_ok 0 (checkout any_email example_config zero_quantity_request)
    = ([], Failure ZodError).
Proof.
  destruct (bad_quantity_rejected (VNum (Int 0)) qty_zero) as [H _].
  eapply (H any_email example_config _
            (list_to_map [ ("name", VStr "Small Fries"); ("qty", VNum (Int 0)) ])).
  - vm_compute. reflexivity.
  - apply elem_of_cons. left. reflexivity.
  - vm_compute. reflexivity.
Defined.

(** C6 as worded fails: for a quantity of zero the request is rejected by
    validation, with the [ZodError], and not by sanitization with
    "Bad qty". *)
Lemma zero_quantity_is_a_validation_error :
  run world_ok 0 (checkout any_email example_config zero_quantity_request)
  = ([], Failure ZodError)
  ∧ Failure ZodError ≠ Failure (Error "Bad qty for Small Fries")
  ∧ sanitizeCart defaultPriceBook [ {| name := "Small Fries"; qty := VNum (Int 0) |} ]
    = inl (Error "Bad qty for Small Fries").
Proof. repeat split; by vm_compute. Qed.

(** C7 as worded fails at the empty string, which validation accepts for
    the pickup time and for the country.  A pickup whose time is given as
    the empty string is submitted as ASAP, not as SCHEDULED, with that
    time as [pickup_at]; and a structured address whose country is the
    empty string does not keep it: the order carries "US". *)
Lemma empty_time_and_country_count_as_absent :
  (∃ body op oa t r p,
     CheckoutBody any_email empty_pickup_time_request = Some body
     ∧ fulfillment body = pickup ∧ pickupTime body = Some ""
     ∧ run world_ok 0 (checkout any_email example_config empty_pickup_time_request)
       = (Drawn "uuid-0" :: OrderCall op oa :: t, r)
     ∧ pickup_details <$> head (fulfillments (order_of op)) = Some (Some p)
     ∧ pickup_schedule_type p = "ASAP"
     ∧ pickup_at p = Some "")
  ∧ (∃ body a op oa t r d pa,
       CheckoutBody any_email empty_country_request = Some body
       ∧ fulfillment body = delivery
       ∧ address body = Some (AddressObject a) ∧ in_country a = Some ""
       ∧ run world_ok 0 (checkout any_email example_config empty_country_request)
         = (Drawn "uuid-0" :: OrderCall op oa :: t, r)
       ∧ delivery_details <$> head (fulfillments (order_of op)) = Some (Some d)
       ∧ delivery_address d = Some pa
       ∧ address_line_1 pa = "12 Elm St"
       ∧ country pa = "US").
Proof.
  split.
  - eexists _, _, _, _, _, _. repeat split; by vm_compute.
  - eexists _, _, _, _, _, _, _, _. repeat split; by vm_compute.
Qed.

(** C7 at a pickup request with a time. *)
Lemma one_fulfillment_block_scheduled :
  ∃ op oa t r f,
    run world_ok 0 (checkout any_email example_config scheduled_pickup_request)
    = (Drawn (uuid world_ok 0) :: OrderCall op oa :: t, r)
    ∧ fulfillments (order_of op) = [f]
    ∧ ∃ p, pickup_details f = Some p
           ∧ pickup_schedule_type p = "SCHEDULED"
           ∧ pickup_at p = Some "2025-06-01T18:30:00Z".
Proof.
  destruct (one_fulfillment_block any_email example_config scheduled_pickup_request
              {| cart := [ {| name := "Small Fries"; qty := VNum (Int 2) |} ];
                 contact := {| contact_name := "Amina";
                               contact_phone := "7165550100";
                               contact_email := None |};
                 pickupTime := Some "2025-06-01T18:30:00Z";
                 fulfillment := pickup; address := None;
                 paymentToken := "cnon:card-nonce-ok" |}
              example_items world_ok 0)
    as (op & oa & t & r & f & Hrun & Hf & _ & _ & p & Hp & _ & Htime & _).
  - vm_compute. reflexivity.
  - vm_compute. reflexivity.
  - exists op, oa, t, r, f. split; [exact Hrun|]. split; [exact Hf|].
    exists p. split; [exact Hp|]. by apply Htime.
Defined.

(** C8 at two attempts with the same request, the second drawing after
    the first. *)
Lemma idempotency_keys_fresh_same_cart :
  NoDup (keys (run world_ok 0 (checkout any_email example_config fries_request)).1
         ++ keys (run world_ok 2 (checkout any_email example_config fries_request)).1).
Proof.
  apply (idempotency_keys_fresh any_email example_config example_config
           fries_request fries_request world_ok world_ok 0 2).
  apply (bool_decide_unpack (NoDup _)). vm_compute. exact I.
Defined.

(** C10 at a cart of two lines. *)
Lemma sanitizeCart_preserves_lines_two :
  length [ {| item_name := "Small Fries"; item_qty := 2; priceCents := Number (Int 299) |};
           {| item_name := "Soda Can"; item_qty := 1; priceCents := Number (Int 150) |} ]
  = length [ {| name := "Small Fries"; qty := VNum (Int 2) |};
             {| name := "Soda Can"; qty := VNum (Int 1) |} ].
Proof.
  apply (sanitizeCart_preserves_lines defaultPriceBook).
  vm_compute. reflexivity.
Defined.

End ServerProofs.

(** ** The cart store *)

Module CartProofs.
Import Cart.

(** A string that starts with digits is coerced to their value, or to 1
    when that is less. *)
Lemma coerce_digits ts s z :
  s ≠ "" → parseInt_string s = Int z → coerce ts (Str s) = Int (Z.max 1 z).
Proof.
  intros Hs Hz. unfold coerce. simpl.
  rewrite bool_decide_eq_false_2 by done. simpl. by rewrite Hz.
Qed.

(** A call without quantity, or with the empty string, stores 1. *)
Lemma coerce_default ts : coerce ts Missing = Int 1 ∧ coerce ts (Str "") = Int 1.
Proof. split; by vm_compute. Qed.

(** C9. A string without leading digits, such as "abc", is truthy, so it
    is not replaced by "1"; [parseInt] makes it [NaN] and
    [Math.max(1, NaN)] is [NaN]: [setQty] and [addItem] write a quantity
    that [JSON.stringify] turns into [null], which is not an integer of
    at least 1. *)
Theorem non_numeric_quantity_is_stored_as_null (ts : number → string) :
  coerce ts (Str "abc") = NaN
  ∧ setQty ts 0 (Str "abc")
      [ {| name := "Small Fries"; priceCents := SNum (Int 299); qty := SNum (Int 2) |} ]
    = [ {| name := "Small Fries"; priceCents := SNum (Int 299); qty := SNull |} ]
  ∧ addItem ts "Small Fries" (Int 299) (Str "abc") []
    = [ {| name := "Small Fries"; priceCents := SNum (Int 299); qty := SNull |} ]
  ∧ ¬ valid_qty SNull.
Proof.
  split; [by vm_compute|]. split; [by vm_compute|]. split; [by vm_compute|].
  by intros (z & Hz & _).
Qed.

End CartProofs.

(** ** More of the server *)

Module ServerExtras.
Import Server ServerProofs.

(** *** Sanitization as a whole *)

(** X1. [sanitizeCart] succeeds exactly on the carts whose every line has a
    name that the price book answers for and a quantity that is a positive
    integer. *)
Theorem sanitizeCart_succeeds_iff (pb : gmap string Z) (cart : list cart_line) :
  (∃ items, sanitizeCart pb cart = inr items)
  ↔ Forall (λ l, lookup pb (name l) ≠ Undefined
                 ∧ ∃ q, qty l = VNum (Int q) ∧ 0 < q) cart.
Proof.
  split.
  - intros [items H]. apply sanitizeCart_inv in H.
    induction H as [|l i cart items Hl _ IH]; constructor; [|done].
    apply sanitizeLine_inv in Hl as (_ & Hq & Hpos & _ & Hp). eauto.
  - induction 1 as [|l cart (Hp & q & Hq & Hpos) _ [items IH]]; simpl.
    + by eexists.
    + unfold sanitizeLine. rewrite Hq.
      destruct (lookup pb (name l)) eqn:Hl; [done| |];
        (destruct (Z.leb_spec q 0); [lia|]; simpl; rewrite IH; by eexists).
Qed.

(** X2. A cart fails with the error of its first line that is not let
    through, whatever follows that line: "Unknown item" when the price book
    has no answer for the name, and "Bad qty" otherwise. *)
Theorem sanitizeCart_reports_first_bad_line (pb : gmap string Z)
        (before after : list cart_line) (l : cart_line) :
  Forall (sanitizes pb) before → ¬ sanitizes pb l →
  sanitizeCart pb (before ++ l :: after)
  = inl (Error (match lookup pb (name l) with
                | Undefined => "Unknown item: " +:+ name l
                | _ => "Bad qty for " +:+ name l
                end)).
Proof.
  intros Hb Hl. induction Hb as [|l' before [i Hi] _ IH]; simpl.
  - unfold sanitizes, sanitizeLine in *.
    destruct (lookup pb (name l)); [done| |];
      (destruct (qty l) as [| | |[q|x]| | |]; try done;
       destruct (Z.leb_spec q 0); [done|]; exfalso; apply Hl; eauto).
  - by rewrite Hi, IH.
Qed.

Lemma sanitizeCart_reports_first_bad_line_example :
  sanitizeCart defaultPriceBook
    ([ {| name := "Small Fries"; qty := VNum (Int 2) |} ]
     ++ {| name := "Soda Can"; qty := VNum (Int 0) |}
     :: [ {| name := "Unicorn Combo"; qty := VNum (Int 1) |} ])
  = inl (Error "Bad qty for Soda Can").
Proof.
  apply (sanitizeCart_reports_first_bad_line defaultPriceBook
           [ {| name := "Small Fries"; qty := VNum (Int 2) |} ]
           [ {| name := "Unicorn Combo"; qty := VNum (Int 1) |} ]
           {| name := "Soda Can"; qty := VNum (Int 0) |}).
  - repeat constructor. eexists. vm_compute. reflexivity.
  - intros [i Hi]. vm_compute in Hi. discriminate.
Defined.

(** *** The handler, case by case *)

(** Every run of the handler is one of the four cases of [run_case]. *)
Lemma run_checkout_case is_email cfg req w n :
  run_case is_email cfg req w n (run w n (checkout is_email cfg req)).1
                                (run w n (checkout is_email cfg req)).2.
Proof.
  unfold checkout.
  destruct (CheckoutBody is_email req) as [body|] eqn:Hb; simpl;
    [|by constructor].
  destruct (sanitizeCart _ _) as [e|items] eqn:Hs; simpl;
    [by econstructor|].
  fold (order_payload_of cfg w n body items).
  destruct (order_service w (order_payload_of cfg w n body items))
    as [e|[] oj] eqn:Ho; simpl.
  - rewrite <- Ho. eapply case_order_failed; [done..|]. by rewrite Ho.
  - destruct (created_order oj) as [orderId|] eqn:Hid; simpl.
    + fold (pay_payload_of cfg w n body items orderId).
      destruct (payment_service w (pay_payload_of cfg w n body items orderId))
        as [e|[] pj] eqn:Hp; simpl; rewrite <- Hp;
        (eapply case_paid; [done..|]); by rewrite Hp.
    + rewrite <- Ho. eapply case_order_failed; [done..|]. by rewrite Ho.
  - rewrite <- Ho. eapply case_order_failed; [done..|]. by rewrite Ho.
Qed.

(** X3. The payment call, when there is one, carries the total that the
    server computed from the sanitized items, the payment token of the
    body, the location of the configuration and the id of the order that
    the order call returned. *)
Theorem payment_refers_to_created_order (is_email : string → bool) (cfg : config)
        (req : value) (w : world) (n : nat) :
  ∀ pp pa, PaymentCall pp pa ∈ (run w n (checkout is_email cfg req)).1 →
    ∃ body items op oj,
      CheckoutBody is_email req = Some body
      ∧ sanitizeCart (PRICE_BOOK cfg) (cart body) = inr items
      ∧ OrderCall op (Responded true oj) ∈ (run w n (checkout is_email cfg req)).1
      ∧ order_of op = orderObj cfg body items
      ∧ created_order oj = Some (order_id pp)
      ∧ amount_money pp = totalCents cfg (isDelivery body) items
      ∧ source_id pp = paymentToken body
      ∧ pay_location_id pp = LOCATION_ID cfg.
Proof.
  intros pp pa Hin.
  destruct (run_checkout_case is_email cfg req w n)
    as [Hb|body e Hb Hs|body items e Hb Hs op Ho|body items oj id r Hb Hs op Ho Hid pp' Hp];
    in_trace Hin.
  exists body, items, op, oj. repeat split; try done.
  apply elem_of_cons. right. apply elem_of_cons. by left.
Qed.

Lemma payment_refers_to_created_order_example :
  ∃ body items op oj,
    CheckoutBody any_email fries_request = Some body
    ∧ sanitizeCart (PRICE_BOOK example_config) (cart body) = inr items
    ∧ OrderCall op (Responded true oj)
      ∈ (run world_ok 0 (checkout any_email example_config fries_request)).1
    ∧ order_of op = orderObj example_config body items
    ∧ created_order oj = Some (Some "ORDER-1")
    ∧ Int 646 = totalCents example_config (isDelivery body) items
    ∧ "cnon:card-nonce-ok" = paymentToken body
    ∧ Some "LOCATION" = LOCATION_ID example_config.
Proof.
  apply (payment_refers_to_created_order any_email example_config fries_request
           world_ok 0
           {| pay_idempotency_key := "uuid-1";
              source_id := "cnon:card-nonce-ok";
              pay_location_id := Some "LOCATION";
              amount_money := Int 646;
              order_id := Some "ORDER-1" |}
           (payment_service world_ok
              (pay_payload_of example_config world_ok 0 fries_body example_items
                 (Some "ORDER-1")))).
  vm_compute. do 3 (apply elem_of_cons; right). apply elem_of_cons. left. reflexivity.
Defined.

(** X4. The handler answers with success exactly when the order call was
    answered with ok and an order, and the payment call with ok; the
    answer then carries the id of that order and the id of that payment. *)
Theorem success_iff_both_calls_succeed (is_email : string → bool) (cfg : config)
        (req : value) (w : world) (n : nat) (orderId paymentId : option string) :
  (run w n (checkout is_email cfg req)).2 = Success orderId paymentId
  ↔ ∃ op oj pp pj,
      (run w n (checkout is_email cfg req)).1
      = [Drawn (uuid w n); OrderCall op (Responded true oj);
         Drawn (uuid w (S n)); PaymentCall pp (Responded true pj)]
      ∧ created_order oj = Some orderId
      ∧ paymentId = match created_payment pj with
                    | Some id => id
                    | None => None
                    end.
Proof.
  destruct (run_checkout_case is_email cfg req w n)
    as [Hb|body e Hb Hs|body items e Hb Hs op Ho|body items oj id r Hb Hs op Ho Hid pp Hp].
  - split; [done|]. by intros (? & ? & ? & ? & ? & _).
  - split; [done|]. by intros (? & ? & ? & ? & ? & _).
  - split; [done|]. intros (op' & oj' & pp' & pj' & Ht & _). discriminate.
  - destruct (payment_service w pp) as [e|[] pj] eqn:Hpay; subst r.
    + split; [done|]. intros (? & ? & ? & ? & Ht & _). simplify_eq.
    + split.
      * intros [= <- <-]. by exists op, oj, pp, pj.
      * intros (op' & oj' & pp' & pj' & Ht & Hid' & ->). simplify_eq. done.
    + split; [done|]. intros (? & ? & ? & ? & Ht & _). simplify_eq.
Qed.

(** X5. The handler makes no call at all exactly when validation or
    sanitization refuses the request. *)
Theorem no_call_iff_refused (is_email : string → bool) (cfg : config)
        (req : value) (w : world) (n : nat) :
  (run w n (checkout is_email cfg req)).1 = []
  ↔ CheckoutBody is_email req = None
    ∨ ∃ body e, CheckoutBody is_email req = Some body
                ∧ sanitizeCart (PRICE_BOOK cfg) (cart body) = inl e.
Proof.
  destruct (run_checkout_case is_email cfg req w n)
    as [Hb|body e Hb Hs|body items e Hb Hs op Ho|body items oj id r Hb Hs op Ho Hid pp Hp].
  - split; [by left | done].
  - split; [right; eauto | done].
  - split; [done|]. intros [?|(b & e' & ? & ?)]; congruence.
  - split; [done|]. intros [?|(b & e' & ? & ?)]; congruence.
Qed.

(** X6. A checkout makes at most one order call and at most one payment
    call.  When the payment call is not answered with ok it is the last
    thing the handler does: the order that was created stays, no further
    call is made, and the answer is a failure. *)
Theorem no_retry_no_compensation (is_email : string → bool) (cfg : config)
        (req : value) (w : world) (n : nat) :
  let t := (run w n (checkout is_email cfg req)).1 in
  (length (order_calls t) ≤ 1)%nat
  ∧ (length (payment_calls t) ≤ 1)%nat
  ∧ ∀ pp pa, PaymentCall pp pa ∈ t → succeeded pa = false →
      last t = Some (PaymentCall pp pa)
      ∧ (∃ op oj, order_calls t = [(op, Responded true oj)])
      ∧ ∃ e, (run w n (checkout is_email cfg req)).2 = Failure e.
Proof.
  intros t. subst t.
  destruct (run_checkout_case is_email cfg req w n)
    as [Hb|body e Hb Hs|body items e Hb Hs op Ho|body items oj id r Hb Hs op Ho Hid pp Hp];
    simpl; (split; [lia|]); (split; [lia|]); intros pp' pa' Hin Hfail; in_trace Hin.
  split; [done|]. split; [eauto|].
  destruct (payment_service w pp) as [e|[] pj]; try done; eauto.
Qed.

Lemma no_retry_no_compensation_declined :
  ∃ pp pa,
    last (run world_payment_declined 0
            (checkout any_email example_config fries_request)).1
    = Some (PaymentCall pp pa)
    ∧ (∃ op oj, order_calls (run world_payment_declined 0
                               (checkout any_email example_config fries_request)).1
                = [(op, Responded true oj)])
    ∧ (run world_payment_declined 0
         (checkout any_email example_config fries_request)).2
      = Failure (Error "Card declined.").
Proof.
  destruct (no_retry_no_compensation any_email example_config fries_request
              world_payment_declined 0) as (_ & _ & H).
  eexists _, _.
  edestruct H as (Hlast & Hone & _).
  - vm_compute. do 3 (apply elem_of_cons; right). apply elem_of_cons. left. reflexivity.
  - reflexivity.
  - split; [exact Hlast|]. split; [exact Hone|]. reflexivity.
Defined.

(** X7. When the order service answers without ok, the client is told the
    detail of the first error of the answer, or "Square createOrder failed"
    when that detail is missing or empty. *)
Theorem refused_order_reports_detail (is_email : string → bool) (cfg : config)
        (req : value) (w : world) (n : nat) (op : order_payload) (oj : order_json) :
  OrderCall op (Responded false oj) ∈ (run w n (checkout is_email cfg req)).1 →
  (run w n (checkout is_email cfg req)).2
  = Failure (Error (match order_errors oj with
                    | {| detail := Some d |} :: _ =>
                        if bool_decide (d = "") then "Square createOrder failed" else d
                    | _ => "Square createOrder failed"
                    end)).
Proof.
  intros Hin.
  destruct (run_checkout_case is_email cfg req w n)
    as [Hb|body e Hb Hs|body items e Hb Hs op' Ho|body items oj' id r Hb Hs op' Ho Hid pp Hp];
    try (by in_trace Hin).
  apply elem_of_cons in Hin as [?|Hin]; [done|].
  apply elem_of_cons in Hin as [Heq|Hin]; [|by apply elem_of_nil in Hin].
  injection Heq as -> Hresp. rewrite <- Hresp in Ho. by subst e.
Qed.

Lemma refused_order_reports_detail_example :
  (run world_order_refused 0 (checkout any_email example_config fries_request)).2
  = Failure (Error "Invalid line item").
Proof.
  eapply (refused_order_reports_detail any_email example_config fries_request
            world_order_refused 0 _
            {| order_errors := [ {| detail := Some "Invalid line item" |} ];
               created_order := None |}).
  vm_compute. apply elem_of_cons. right. apply elem_of_cons. left. reflexivity.
Defined.

(** *** The order that is assembled *)

(** X8. The order has one line per sanitized item, in the order of the
    cart, with the item's name, quantity and price in USD; for a delivery
    with a fee above 0, and only then, one more line follows them, the
    "Delivery Fee" in quantity 1. *)
Theorem line_items_follow_the_cart (cfg : config) (body : checkout_body)
        (items : list item) :
  let lines := line_items (orderObj cfg body items) in
  let with_fee := isDelivery body && gt0 (DELIVERY_FEE_CENTS cfg) in
  length lines = (length items + (if with_fee then 1 else 0))%nat
  ∧ (∀ i it, items !! i = Some it →
       lines !! i = Some {| li_name := item_name it; quantity := item_qty it;
                            base_price_money :=
                              {| amount := priceCents it; currency := "USD" |} |})
  ∧ lines !! length items
    = if with_fee
      then Some {| li_name := "Delivery Fee"; quantity := 1;
                   base_price_money :=
                     {| amount := Number (DELIVERY_FEE_CENTS cfg);
                        currency := "USD" |} |}
      else None.
Proof.
  simpl. unfold line_items_of.
  set (f := λ i, {| li_name := item_name i; quantity := item_qty i;
                    base_price_money := {| amount := priceCents i; currency := "USD" |} |}).
  split; [|split].
  - rewrite length_app, length_map. by destruct (_ && _).
  - intros i it Hi. rewrite lookup_app_l.
    + change (map f items) with (f <$> items). by rewrite list_lookup_fmap, Hi.
    + rewrite length_map. by eapply lookup_lt_Some.
  - rewrite lookup_app_r; rewrite length_map; [|lia].
    rewrite Nat.sub_diag. by destruct (_ && _).
Qed.

(** *** Totals that are not numbers *)

Lemma add_NaN_l a : add NaN a = NaN.
Proof. by destruct a. Qed.

Lemma add_NaN_r a : add a NaN = NaN.
Proof. destruct a as [z|x]; [|destruct x]; try done. simpl. by destruct (binary_normalize _ _ _ _ _). Qed.

Lemma mul_NaN_l a : mul NaN a = NaN.
Proof. by destruct a. Qed.

Lemma mul_NaN_r a : mul a NaN = NaN.
Proof. destruct a as [z|x]; [|destruct x]; try done. simpl. by destruct (binary_normalize _ _ _ _ _). Qed.

Lemma sumCents_from_NaN items :
  fold_left (λ s i, add s (mul (to_number (priceCents i)) (Int (item_qty i))))
            items NaN = NaN.
Proof.
  induction items as [|i items IH]; [done|].
  cbn [fold_left]. by rewrite add_NaN_l.
Qed.

(** X9. One item whose price is not a number, as an inherited name gives
    it, makes the sum of the cart [NaN], and with it the subtotal and the
    total that the payment call would carry, whatever the other items, the
    fee and the tax rate are. *)
Theorem inherited_price_poisons_the_total (cfg : config) (is_delivery : bool)
        (items : list item) (i : item) (key : string) :
  i ∈ items → priceCents i = Inherited key →
  sumCents items = NaN
  ∧ subtotalCents cfg is_delivery items = NaN
  ∧ totalCents cfg is_delivery items = NaN.
Proof.
  intros Hin Hp.
  assert (Hsum : sumCents items = NaN).
  { unfold sumCents. generalize (Int 0).
    induction items as [|j items IH]; intros s; [by apply elem_of_nil in Hin|].
    cbn [fold_left]. apply elem_of_cons in Hin as [<-|Hin].
    - rewrite Hp. cbn [to_number]. rewrite mul_NaN_l, add_NaN_r.
      apply sumCents_from_NaN.
    - by apply IH. }
  assert (Hsub : subtotalCents cfg is_delivery items = NaN).
  { unfold subtotalCents. by rewrite Hsum, add_NaN_l. }
  split; [done|]. split; [done|].
  unfold totalCents. by rewrite Hsub, add_NaN_l.
Qed.

Lemma inherited_price_poisons_the_total_example :
  totalCents example_config false
    [ {| item_name := "Small Fries"; item_qty := 2; priceCents := Number (Int 299) |};
      {| item_name := "valueOf"; item_qty := 1; priceCents := Inherited "valueOf" |} ]
  = NaN.
Proof.
  eapply (inherited_price_poisons_the_total example_config false _
            {| item_name := "valueOf"; item_qty := 1; priceCents := Inherited "valueOf" |}).
  - apply elem_of_cons. right. apply elem_of_cons. by left.
  - reflexivity.
Defined.

(** *** What validation lets through *)

Lemma z_cart_line_inv v l :
  z_cart_line v = Some l → ∃ q, qty l = VNum (Int q) ∧ 0 < q.
Proof.
  unfold z_cart_line. destruct v as [| | | | | |o]; try done.
  destruct (z_string (field o "name")) as [n|]; simpl; [|done].
  unfold z_number_int_positive.
  destruct (field o "qty") as [| | |[q|x]| | |]; simpl; try done.
  destruct (Z.ltb_spec 0 q); [|done]. intros [= <-]. simpl. eauto.
Qed.

Lemma z_string_min_inv n v s :
  z_string_min n v = Some s → (n ≤ String.length s)%nat.
Proof.
  unfold z_string_min. destruct v; try done.
  case_bool_decide; [|done]. by intros [= <-].
Qed.

Lemma validated_quantities is_email req body :
  CheckoutBody is_email req = Some body →
  Forall (λ l, ∃ q, qty l = VNum (Int q) ∧ 0 < q) (cart body).
Proof.
  unfold CheckoutBody. destruct req as [| | | | | |o]; try done.
  destruct (z_array z_cart_line (field o "cart")) as [c|] eqn:Hc; simpl; [|done].
  intros H.
  assert (cart body = c) as ->.
  { destruct (z_contact _ _), (z_optional _ _), (z_fulfillment _),
      (AddressTextOrObject _), (z_string (field o "paymentToken"));
      simpl in H; try done. by injection H as <-. }
  unfold z_array in Hc. destruct (field o "cart"); try done.
  apply mapM_Some_1 in Hc. clear H.
  induction Hc as [|v l vs ls Hv _ IH]; [constructor|].
  constructor; [|done]. by eapply z_cart_line_inv.
Qed.

Lemma validated_contact is_email req body :
  CheckoutBody is_email req = Some body →
  (1 ≤ String.length (contact_name (contact body)))%nat
  ∧ (7 ≤ String.length (contact_phone (contact body)))%nat
  ∧ ∀ e, contact_email (contact body) = Some e → is_email e = true.
Proof.
  intros H. unfold CheckoutBody in H. destruct req as [| | | | | |o]; try done.
  destruct (z_array z_cart_line (field o "cart")) as [c|]; simpl in H; [|done].
  destruct (z_contact is_email (field o "contact")) as [ct|] eqn:Hct; simpl in H; [|done].
  destruct (z_optional z_string (field o "pickupTime")) as [pt|]; simpl in H; [|done].
  destruct (z_fulfillment (field o "fulfillment")) as [f|]; simpl in H; [|done].
  destruct (AddressTextOrObject (field o "address")) as [a|]; simpl in H; [|done].
  destruct (z_string (field o "paymentToken")) as [tok|]; simpl in H; [|done].
  injection H as <-. simpl.
  unfold z_contact in Hct. destruct (field o "contact") as [| | | | | |oc]; try done.
  destruct (z_string_min 1 (field oc "name")) as [nm|] eqn:Hn; simpl in Hct; [|done].
  destruct (z_string_min 7 (field oc "phone")) as [ph|] eqn:Hp; simpl in Hct; [|done].
  destruct (z_optional (z_email is_email) (field oc "email")) as [em|] eqn:He;
    simpl in Hct; [|done].
  injection Hct as <-. simpl.
  split; [by eapply z_string_min_inv|]. split; [by eapply z_string_min_inv|].
  intros e ->. unfold z_optional, z_email in He.
  destruct (field oc "email"); simpl in He; try done.
  destruct (is_email s) eqn:Hs; simpl in He; [|done]. by injection He as <-.
Qed.

Lemma validated_address is_email req body :
  CheckoutBody is_email req = Some body →
  match address body with
  | Some (AddressText text) => (1 ≤ String.length text)%nat
  | Some (AddressObject a) => (1 ≤ String.length (in_address_line_1 a))%nat
  | None => True
  end.
Proof.
  intros H. unfold CheckoutBody in H. destruct req as [| | | | | |o]; try done.
  destruct (z_array z_cart_line (field o "cart")) as [c|]; simpl in H; [|done].
  destruct (z_contact is_email (field o "contact")) as [ct|]; simpl in H; [|done].
  destruct (z_optional z_string (field o "pickupTime")) as [pt|]; simpl in H; [|done].
  destruct (z_fulfillment (field o "fulfillment")) as [f|]; simpl in H; [|done].
  destruct (AddressTextOrObject (field o "address")) as [a|] eqn:Ha; simpl in H; [|done].
  destruct (z_string (field o "paymentToken")) as [tok|]; simpl in H; [|done].
  injection H as <-. simpl.
  unfold AddressTextOrObject in Ha.
  destruct (field o "address") as [| | | |s| |oa]; try done.
  - by injection Ha as <-.
  - case_bool_decide; [|done]. by injection Ha as <-.
  - destruct (z_string_min 1 (field oa "address_line_1")) as [l1|] eqn:Hl1;
      simpl in Ha; [|done].
    destruct (z_optional z_string (field oa "locality")); simpl in Ha; [|done].
    destruct (z_optional z_string (field oa "administrative_district_level_1"));
      simpl in Ha; [|done].
    destruct (z_optional z_string (field oa "postal_code")); simpl in Ha; [|done].
    destruct (z_optional z_string (field oa "country")); simpl in Ha; [|done].
    injection Ha as <-. simpl. by eapply z_string_min_inv.
Qed.

(** X10. A body that validation accepts has a cart of positive integer
    quantities, a contact with a name that is not empty, a phone of at
    least 7 code units and, if any, an e-mail that passed the e-mail test,
    and an address, if any, whose text or first line is not empty. *)
Theorem validated_body_is_well_formed (is_email : string → bool) (req : value)
        (body : checkout_body) :
  CheckoutBody is_email req = Some body →
  Forall (λ l, ∃ q, qty l = VNum (Int q) ∧ 0 < q) (cart body)
  ∧ (1 ≤ String.length (contact_name (contact body)))%nat
  ∧ (7 ≤ String.length (contact_phone (contact body)))%nat
  ∧ (∀ e, contact_email (contact body) = Some e → is_email e = true)
  ∧ (∀ text, address body = Some (AddressText text) → (1 ≤ String.length text)%nat)
  ∧ (∀ a, address body = Some (AddressObject a) →
       (1 ≤ String.length (in_address_line_1 a))%nat).
Proof.
  intros H. split; [by eapply validated_quantities|].
  destruct (validated_contact _ _ _ H) as (? & ? & ?).
  pose proof (validated_address _ _ _ H) as Ha.
  repeat (split; [done|]). split.
  - intros text Heq. by rewrite Heq in Ha.
  - intros a Heq. by rewrite Heq in Ha.
Qed.

Lemma validated_body_is_well_formed_fries :
  (7 ≤ String.length (contact_phone (contact fries_body)))%nat.
Proof.
  destruct (validated_body_is_well_formed any_email fries_request fries_body)
    as (_ & _ & H & _).
  - vm_compute. reflexivity.
  - exact H.
Defined.

(** X11. The delivery address that is assembled for a validated body, if
    any, has a first line that is not empty and a country that is not
    empty: "US" where the body gave none, or an empty one. *)
Theorem delivery_address_is_never_blank (is_email : string → bool) (req : value)
        (body : checkout_body) (a : postal_address) :
  CheckoutBody is_email req = Some body →
  delivery_address_of (address body) = Some a →
  address_line_1 a ≠ "" ∧ country a ≠ ""
  ∧ (country a = "US"
     ∨ ∃ o, address body = Some (AddressObject o) ∧ in_country o = Some (country a)).
Proof.
  intros Hb Ha. apply validated_address in Hb.
  unfold delivery_address_of in Ha.
  destruct (address body) as [[text|o]|]; [| |done]; injection Ha as <-; simpl.
  - split; [|split; [done | by left]]. intros ->. simpl in Hb. lia.
  - split; [intros Heq; rewrite Heq in Hb; simpl in Hb; lia|].
    destruct (in_country o) as [c|] eqn:Hc; [|split; [done | by left]].
    case_bool_decide; [split; [done | by left]|].
    split; [done|]. right. eauto.
Qed.

Lemma delivery_address_is_never_blank_example :
  address_line_1
    {| address_line_1 := "12 Elm St"; locality := None;
       administrative_district_level_1 := None; postal_code := None;
       country := "US" |} ≠ ""
  ∧ country
      {| address_line_1 := "12 Elm St"; locality := None;
         administrative_district_level_1 := None; postal_code := None;
         country := "US" |} ≠ "".
Proof.
  destruct (delivery_address_is_never_blank any_email
              (request [ entry "Small Fries" (VNum (Int 2)) ]
                       [ ("fulfillment", VStr "delivery");
                         ("address", VStr "12 Elm St") ])
              {| cart := [ {| name := "Small Fries"; qty := VNum (Int 2) |} ];
                 contact := {| contact_name := "Amina";
                               contact_phone := "7165550100";
                               contact_email := None |};
                 pickupTime := None; fulfillment := delivery;
                 address := Some (AddressText "12 Elm St");
                 paymentToken := "cnon:card-nonce-ok" |}
              {| address_line_1 := "12 Elm St"; locality := None;
                 administrative_district_level_1 := None; postal_code := None;
                 country := "US" |})
    as (H1 & H2 & _).
  - vm_compute. reflexivity.
  - reflexivity.
  - split; [exact H1 | exact H2].
Defined.

(** X12. In the endpoint the quantity test of [sanitizeCart] never fires:
    when the cart of a validated body is refused, it is for a line whose
    name the price book has no answer for, with "Unknown item". *)
Theorem validated_cart_fails_for_unknown_item_only (is_email : string → bool)
        (pb : gmap string Z) (req : value) (body : checkout_body) (e : exn) :
  CheckoutBody is_email req = Some body →
  sanitizeCart pb (cart body) = inl e →
  ∃ l, l ∈ cart body ∧ lookup pb (name l) = Undefined
       ∧ e = Error ("Unknown item: " +:+ name l).
Proof.
  intros Hb. apply validated_quantities in Hb.
  induction Hb as [|l c (q & Hq & Hpos) _ IH]; simpl; [done|].
  unfold sanitizeLine at 1. rewrite Hq.
  destruct (lookup pb (name l)) eqn:Hl.
  - simpl. intros [= <-]. exists l. split; [by left | done].
  - destruct (Z.leb_spec q 0); [lia|]. simpl.
    destruct (sanitizeCart pb c) as [e'|items]; simpl; [|done].
    intros [= <-]. destruct IH as (l' & Hin & ? & ?); [done|].
    exists l'. split; [by right | done].
  - destruct (Z.leb_spec q 0); [lia|]. simpl.
    destruct (sanitizeCart pb c) as [e'|items]; simpl; [|done].
    intros [= <-]. destruct IH as (l' & Hin & ? & ?); [done|].
    exists l'. split; [by right | done].
Qed.

Lemma validated_cart_fails_for_unknown_item_only_example :
  ∃ l, l ∈ [ {| name := "Unicorn Combo"; qty := VNum (Int 1) |} ]
       ∧ lookup defaultPriceBook (name l) = Undefined
       ∧ Error "Unknown item: Unicorn Combo" = Error ("Unknown item: " +:+ name l).
Proof.
  apply (validated_cart_fails_for_unknown_item_only any_email defaultPriceBook
           unknown_item_request
           {| cart := [ {| name := "Unicorn Combo"; qty := VNum (Int 1) |} ];
              contact := {| contact_name := "Amina";
                            contact_phone := "7165550100";
                            contact_email := None |};
              pickupTime := None; fulfillment := pickup; address := None;
              paymentToken := "cnon:card-nonce-ok" |}).
  - vm_compute. reflexivity.
  - vm_compute. reflexivity.
Defined.

(** X13. Keys of the body that the schema does not name are ignored: a
    body with such a key added is validated to the same thing, and the
    handler does the same with it. *)
Theorem unknown_body_keys_are_ignored (is_email : string → bool) (cfg : config)
        (o : gmap string value) (k : string) (v : value) :
  k ∉ body_keys →
  CheckoutBody is_email (VObj (<[k := v]> o)) = CheckoutBody is_email (VObj o)
  ∧ checkout is_email cfg (VObj (<[k := v]> o)) = checkout is_email cfg (VObj o).
Proof.
  intros Hk.
  assert (Hf : ∀ k', k' ∈ body_keys → field (<[k := v]> o) k' = field o k').
  { intros k' Hk'. unfold field. rewrite lookup_insert_ne; [done|].
    intros ->. done. }
  assert (Hparse : CheckoutBody is_email (VObj (<[k := v]> o))
                   = CheckoutBody is_email (VObj o)).
  { unfold CheckoutBody. rewrite !Hf; [done|..]; unfold body_keys;
      repeat (apply elem_of_cons; first [by left | right]). }
  split; [done|]. unfold checkout. by rewrite Hparse.
Qed.

Lemma unknown_body_keys_are_ignored_tip :
  CheckoutBody any_email
    (VObj (<["tip" := VNum (Int 500)]>
             (list_to_map [ ("cart", VArr []); ("paymentToken", VStr "t") ])))
  = CheckoutBody any_email
      (VObj (list_to_map [ ("cart", VArr []); ("paymentToken", VStr "t") ]))
  ∧ checkout any_email example_config
      (VObj (<["tip" := VNum (Int 500)]>
               (list_to_map [ ("cart", VArr []); ("paymentToken", VStr "t") ])))
    = checkout any_email example_config
        (VObj (list_to_map [ ("cart", VArr []); ("paymentToken", VStr "t") ])).
Proof.
  apply (unknown_body_keys_are_ignored any_email example_config
           (list_to_map [ ("cart", VArr []); ("paymentToken", VStr "t") ])
           "tip" (VNum (Int 500))).
  apply (bool_decide_unpack (_ ∉ _)). vm_compute. exact I.
Defined.

(** *** The empty cart *)

(** X14. An empty cart is not refused: the order is submitted without item
    lines (for a delivery with a fee, with the fee line alone).  For a
    pickup at the rate of 8 percent, when the order service answers with ok
    and an order, the handler goes on to the payment call, for that order
    and for the amount 0; and no payment call of the run carries another
    amount. *)
Theorem empty_cart_is_submitted (is_email : string → bool) (cfg : config)
        (req : value) (body : checkout_body) (w : world) (n : nat) :
  CheckoutBody is_email req = Some body → cart body = [] →
  ∃ op t r,
    run w n (checkout is_email cfg req)
    = (Drawn (uuid w n) :: OrderCall op (order_service w op) :: t, r)
    ∧ line_items (order_of op)
      = (if isDelivery body && gt0 (DELIVERY_FEE_CENTS cfg)
         then [ {| li_name := "Delivery Fee"; quantity := 1;
                   base_price_money :=
                     {| amount := Number (DELIVERY_FEE_CENTS cfg);
                        currency := "USD" |} |} ]
         else [])
    ∧ (isDelivery body = false → TAX_RATE_PERCENT cfg = Int 8 →
       (∀ oj id, order_service w op = Responded true oj →
                 created_order oj = Some id →
          ∃ pp, t = [Drawn (uuid w (S n)); PaymentCall pp (payment_service w pp)]
                ∧ amount_money pp = Int 0 ∧ order_id pp = id)
       ∧ (∀ pp pa, PaymentCall pp pa ∈ t → amount_money pp = Int 0)).
Proof.
  intros Hb Hc.
  assert (Hs : sanitizeCart (PRICE_BOOK cfg) (cart body) = inr []) by by rewrite Hc.
  assert (Hzero : isDelivery body = false → TAX_RATE_PERCENT cfg = Int 8 →
                  totalCents cfg (isDelivery body) [] = Int 0).
  { intros Hpick Hrate. unfold totalCents, subtotalCents, taxCents.
    rewrite Hpick, Hrate. by vm_compute. }
  rewrite (surjective_pairing (run w n (checkout is_email cfg req))).
  destruct (run_checkout_case is_email cfg req w n)
    as [Hb'|body' e Hb' Hs'|body' items e Hb' Hs' op Ho|body' items oj id r Hb' Hs' op Ho Hid pp Hp];
    try congruence; simplify_eq.
  - rewrite Hs in Hs'. injection Hs' as <-.
    exists op, [], (Failure e). split; [done|]. split; [by subst op|].
    intros _ _. split.
    + intros oj id Hoj Hid. rewrite Hoj in Ho. destruct Ho as [Hnone _]. congruence.
    + intros pp pa Hin. by apply elem_of_nil in Hin.
  - rewrite Hs in Hs'. injection Hs' as <-.
    exists op, [Drawn (uuid w (S n)); PaymentCall pp (payment_service w pp)], r.
    split; [by rewrite Ho|]. split; [by subst op|].
    intros Hpick Hrate. split.
    + intros oj' id' Hoj Hid'. rewrite Ho in Hoj. injection Hoj as <-.
      rewrite Hid in Hid'. injection Hid' as <-.
      exists pp. split; [done|]. split; [|done]. by apply Hzero.
    + intros pp' pa Hin. in_trace Hin. by apply Hzero.
Qed.

Lemma empty_cart_is_submitted_example :
  ∃ op t r pp pa,
    run world_ok 0 (checkout any_email example_config empty_cart_request)
    = (Drawn (uuid world_ok 0) :: OrderCall op (order_service world_ok op) :: t, r)
    ∧ line_items (order_of op) = []
    ∧ t = [Drawn (uuid world_ok 1); PaymentCall pp pa]
    ∧ amount_money pp = Int 0
    ∧ order_id pp = Some "ORDER-1".
Proof.
  destruct (empty_cart_is_submitted any_email example_config empty_cart_request
              {| cart := [];
                 contact := {| contact_name := "Amina";
                               contact_phone := "7165550100";
                               contact_email := None |};
                 pickupTime := None; fulfillment := pickup; address := None;
                 paymentToken := "cnon:card-nonce-ok" |}
              world_ok 0)
    as (op & t & r & Hrun & Hl & Hp).
  - vm_compute. reflexivity.
  - reflexivity.
  - destruct Hp as [Hpay _]; [reflexivity | reflexivity |].
    destruct (Hpay {| order_errors := []; created_order := Some (Some "ORDER-1") |}
                   (Some "ORDER-1"))
      as (pp & Ht & Hamount & Hid); [reflexivity | reflexivity |].
    exists op, t, r, pp, (payment_service world_ok pp).
    split; [exact Hrun|]. split; [exact Hl|]. split; [exact Ht|].
    split; [exact Hamount | exact Hid].
Defined.

(** *** What the order does not depend on *)

(** X15. The order of a pickup does not depend on the address of the body,
    and the order of a delivery does not depend on its pickup time: two
    bodies with the same contact and fulfillment kind that agree on the
    pickup time, for a pickup, or on the address, for a delivery, give the
    same order for the same items. *)
Theorem other_fulfillment_fields_are_dropped (cfg : config)
        (body body' : checkout_body) (items : list item) :
  contact body = contact body' → fulfillment body = fulfillment body' →
  match fulfillment body with
  | pickup => pickupTime body = pickupTime body'
  | delivery => address body = address body'
  end →
  orderObj cfg body items = orderObj cfg body' items.
Proof.
  intros Hc Hf H. unfold orderObj, isDelivery, fulfillment_of.
  rewrite <- Hf, <- Hc. destruct (fulfillment body); by rewrite H.
Qed.

Lemma other_fulfillment_fields_are_dropped_example :
  orderObj example_config
    {| cart := []; contact := contact fries_body;
       pickupTime := Some "2025-06-01T18:30:00Z"; fulfillment := delivery;
       address := Some (AddressText "12 Elm St"); paymentToken := "t" |}
    example_items
  = orderObj example_config
      {| cart := []; contact := contact fries_body;
         pickupTime := None; fulfillment := delivery;
         address := Some (AddressText "12 Elm St"); paymentToken := "t" |}
      example_items.
Proof.
  apply other_fulfillment_fields_are_dropped; reflexivity.
Defined.

(** *** A fee that is not above 0 *)

(** X16. For a delivery with a fee below 0 the order has no fee line, only
    the lines of the items, yet the fee is added to the subtotal that is
    charged, which is then below the sum of the lines of the order. *)
Theorem negative_fee_is_charged_but_not_listed (cfg : config)
        (body : checkout_body) (items : list item) (fee : Z) :
  Forall (λ i, ∃ c, priceCents i = Number (Int c) ∧ 0 ≤ c ∧ 0 < item_qty i) items →
  isDelivery body = true →
  DELIVERY_FEE_CENTS cfg = Int fee → fee < 0 →
  lines_total items ≤ 2 ^ 53 → - 2 ^ 53 ≤ lines_total items + fee →
  length (line_items (orderObj cfg body items)) = length items
  ∧ subtotalCents cfg (isDelivery body) items = Int (lines_total items + fee).
Proof.
  intros Hitems Hd Hfee Hneg Hmax Hmin. split.
  - unfold orderObj, line_items_of. cbn [line_items].
    rewrite Hd, Hfee. cbn [gt0 andb].
    destruct (Z.ltb_spec 0 fee); [lia|].
    by rewrite length_app, length_map, Nat.add_0_r.
  - unfold subtotalCents. rewrite Hd, Hfee, (sumCents_priced items Hitems Hmax).
    pose proof (lines_total_nonneg items Hitems).
    cbn [add]. apply NumFacts.of_Z_safe. lia.
Qed.

Lemma negative_fee_is_charged_but_not_listed_example :
  length (line_items
            (orderObj {| PRICE_BOOK := defaultPriceBook; TAX_RATE_PERCENT := Int 8;
                         DELIVERY_FEE_CENTS := Int (-100);
                         LOCATION_ID := Some "LOCATION" |}
                      {| cart := []; contact := contact fries_body;
                         pickupTime := None; fulfillment := delivery;
                         address := None; paymentToken := "t" |}
                      example_items))
  = 1%nat
  ∧ subtotalCents {| PRICE_BOOK := defaultPriceBook; TAX_RATE_PERCENT := Int 8;
                     DELIVERY_FEE_CENTS := Int (-100);
                     LOCATION_ID := Some "LOCATION" |}
                  true example_items
    = Int 498.
Proof.
  apply (negative_fee_is_charged_but_not_listed
           {| PRICE_BOOK := defaultPriceBook; TAX_RATE_PERCENT := Int 8;
              DELIVERY_FEE_CENTS := Int (-100);
              LOCATION_ID := Some "LOCATION" |}
           {| cart := []; contact := contact fries_body;
              pickupTime := None; fulfillment := delivery;
              address := None; paymentToken := "t" |}
           example_items (-100)).
  - repeat constructor. exists 299. split; [reflexivity|]. split; [lia | reflexivity].
  - reflexivity.
  - reflexivity.
  - lia.
  - vm_compute. discriminate.
  - vm_compute. discriminate.
Defined.

(** *** The health check *)

(** X17. The health check answers ok exactly when the three credentials
    are set, to something other than the empty string, and the price book
    has the two keys that it must have. *)
Theorem selftest_ok_iff (creds : credentials) (cfg : config) :
  selftest_ok (selftest creds cfg) = true
  ↔ is_set (APPLICATION_ID creds) = true
    ∧ is_set (LOCATION_ID cfg) = true
    ∧ is_set (ACCESS_TOKEN creds) = true
    ∧ is_Some (PRICE_BOOK cfg !! "Cheese Pizza (Small)")
    ∧ is_Some (PRICE_BOOK cfg !! "Pizza Topping (Small)").
Proof.
  unfold selftest, mustHave, has_key. cbn [selftest_ok List.filter].
  rewrite (bool_decide_eq_false_2 ("Cheese Pizza (Small)" ∈ Object_prototype))
    by compute_done.
  rewrite (bool_decide_eq_false_2 ("Pizza Topping (Small)" ∈ Object_prototype))
    by compute_done.
  rewrite !orb_false_r.
  destruct (is_set (APPLICATION_ID creds)), (is_set (LOCATION_ID cfg)),
    (is_set (ACCESS_TOKEN creds)); simpl;
    try (split; [done | by intros (? & ? & ? & _)]).
  repeat case_bool_decide; simpl; split; try done; try tauto; intros; tauto.
Qed.

(** X18. The health check lists a key as missing exactly when it is one of
    the two keys that the price book must have and the price book does not
    have it. *)
Theorem selftest_missing_keys (creds : credentials) (cfg : config) (k : string) :
  k ∈ missingPriceKeys (selftest creds cfg)
  ↔ k ∈ mustHave ∧ PRICE_BOOK cfg !! k = None.
Proof.
  unfold selftest. cbn [missingPriceKeys].
  rewrite !list_elem_of_In, filter_In.
  split; intros [Hk Hmiss]; (split; [done|]).
  - unfold has_key in Hmiss. apply negb_true_iff, orb_false_iff in Hmiss as [Hown _].
    apply bool_decide_eq_false in Hown. by apply eq_None_not_Some.
  - unfold has_key. apply negb_true_iff, orb_false_iff. split.
    + apply bool_decide_eq_false. rewrite Hmiss. by intros [? ?].
    + apply bool_decide_eq_false. unfold mustHave in Hk.
      destruct Hk as [<-|[<-|[]]]; compute_done.
Qed.

(** *** The default price book *)

(** X19. The prices of the default price book are all above 0; none of its
    names is a name that [PRICE_BOOK[name]] inherits; and it has the keys
    that the health check asks for, so that, with it, no key is reported
    missing. *)
Theorem default_price_book_is_sound :
  (∀ n c, defaultPriceBook !! n = Some c → 0 < c)
  ∧ (∀ n, n ∈ Object_prototype → defaultPriceBook !! n = None)
  ∧ (∀ creds cfg, PRICE_BOOK cfg = defaultPriceBook →
       missingPriceKeys (selftest creds cfg) = []).
Proof.
  split; [|split].
  - intros n c H.
    assert (Hall : map_Forall (λ _ c, 0 < c) defaultPriceBook).
    { apply (bool_decide_unpack _). vm_compute. exact I. }
    by apply (Hall n c).
  - intros n Hn. unfold Object_prototype in Hn.
    repeat (apply elem_of_cons in Hn as [->|Hn]; [by vm_compute|]).
    by apply elem_of_nil in Hn.
  - intros creds cfg Hpb. unfold selftest. cbn [missingPriceKeys].
    rewrite Hpb. by vm_compute.
Qed.

End ServerExtras.

(** ** More of the cart store *)

Module CartExtras.
Import Cart CartProofs.

(** *** Finding a row by its name *)

Lemma find_None cart n :
  find cart n = None ↔ ∀ r, r ∈ cart → name r ≠ n.
Proof.
  induction cart as [|r cart IH]; simpl.
  - split; [|done]. intros _ r Hr. by apply elem_of_nil in Hr.
  - case_bool_decide as Hn.
    + split; [done|]. intros H. exfalso. apply (H r); [by left | done].
    + rewrite fmap_None, IH. split.
      * intros H r' [->|Hr']%elem_of_cons; auto.
      * intros H r' Hr'. apply H. by right.
Qed.

Lemma find_first before r after :
  (∀ r', r' ∈ before → name r' ≠ name r) →
  find (before ++ r :: after) (name r) = Some (length before).
Proof.
  induction before as [|r' before IH]; intros H; simpl.
  - by rewrite bool_decide_eq_true_2.
  - rewrite bool_decide_eq_false_2 by (apply H; by left).
    rewrite IH; [done|]. intros r'' Hr''. apply H. by right.
Qed.

Lemma find_Some (cart : list row) (n : string) (i : nat) :
  find cart n = Some i →
  ∃ r, cart !! i = Some r ∧ name r = n.
Proof.
  revert i. induction cart as [|r cart IH]; intros i; simpl; [done|].
  case_bool_decide as Hn.
  - intros [= <-]. by exists r.
  - destruct (find cart n) as [j|]; simpl; [|done].
    intros [= <-]. by apply IH.
Qed.

Lemma names_alter (f : row → row) (i : nat) (cart : list row) :
  (∀ r, name (f r) = name r) → name <$> alter f i cart = name <$> cart.
Proof.
  intros Hf. rewrite (list_fmap_alter name f id).
  - by apply list_alter_id.
  - apply Forall_forall. intros r _. apply Hf.
Qed.

(** *** Adding an item *)

(** X20. [addItem] for a name that no row of the cart has appends one row
    with that name, the price and the coerced quantity, and leaves the
    rows of the cart as they are.  For a name that the cart has it changes
    the first row with that name, and only its quantity, to which it adds
    the coerced quantity: the price that is passed is ignored, and the rows
    before and after stay as they are. *)
Theorem addItem_appends_or_increases (ts : number → string) (n : string)
        (p : number) (a : arg) (cart : list row) :
  let q := coerce ts (match a with Missing => Num (Int 1) | _ => a end) in
  ((∀ r, r ∈ cart → name r ≠ n) →
   addItem ts n p a cart
   = cart ++ [ {| name := n; priceCents := stringify p; qty := stringify q |} ])
  ∧ (∀ before r after,
       cart = before ++ r :: after → name r = n →
       (∀ r', r' ∈ before → name r' ≠ n) →
       addItem ts n p a cart
       = before ++ with_qty (stringify (increase (qty r) q)) r :: after).
Proof.
  intros q. split.
  - intros H. apply find_None in H. unfold addItem. by rewrite H.
  - intros before r after -> <- H. unfold addItem. rewrite (find_first _ _ _ H).
    replace (length before) with (length before + 0)%nat by lia.
    by rewrite alter_app_r.
Qed.

Lemma addItem_appends_or_increases_example :
  addItem (λ _, "1") "Small Fries" (Int 1) (Str "3")
    [ {| name := "Small Fries"; priceCents := SNum (Int 299); qty := SNum (Int 2) |};
      {| name := "Soda Can"; priceCents := SNum (Int 150); qty := SNum (Int 1) |} ]
  = [ {| name := "Small Fries"; priceCents := SNum (Int 299); qty := SNum (Int 5) |};
      {| name := "Soda Can"; priceCents := SNum (Int 150); qty := SNum (Int 1) |} ].
Proof.
  destruct (addItem_appends_or_increases (λ _, "1") "Small Fries" (Int 1) (Str "3")
    [ {| name := "Small Fries"; priceCents := SNum (Int 299); qty := SNum (Int 2) |};
      {| name := "Soda Can"; priceCents := SNum (Int 150); qty := SNum (Int 1) |} ])
    as [_ H].
  apply (H [] {| name := "Small Fries"; priceCents := SNum (Int 299);
                 qty := SNum (Int 2) |}
           [ {| name := "Soda Can"; priceCents := SNum (Int 150); qty := SNum (Int 1) |} ]).
  - reflexivity.
  - reflexivity.
  - intros r' Hr'. by apply elem_of_nil in Hr'.
Defined.

(** X21. The names of the cart after [addItem] are the names before, with
    the name that was added at the end if it was not among them; so a cart
    without two rows of the same name stays one. *)
Theorem addItem_keeps_names_distinct (ts : number → string) (n : string)
        (p : number) (a : arg) (cart : list row) :
  name <$> addItem ts n p a cart
  = (if bool_decide (n ∈ name <$> cart) then name <$> cart
     else (name <$> cart) ++ [n])
  ∧ (NoDup (name <$> cart) → NoDup (name <$> addItem ts n p a cart)).
Proof.
  assert (Hnames : name <$> addItem ts n p a cart
                   = if bool_decide (n ∈ name <$> cart) then name <$> cart
                     else (name <$> cart) ++ [n]).
  { unfold addItem. destruct (find cart n) as [i|] eqn:Hf.
    - apply find_Some in Hf as (r & Hr & Hn).
      rewrite bool_decide_eq_true_2.
      + by apply names_alter.
      + apply list_elem_of_fmap. exists r. split; [done|].
        by eapply list_elem_of_lookup_2.
    - rewrite bool_decide_eq_false_2.
      + by rewrite fmap_app.
      + intros (r & -> & Hr)%list_elem_of_fmap.
        by eapply find_None in Hf. }
  split; [done|]. rewrite Hnames. intros Hnd.
  case_bool_decide as Hin; [done|].
  apply NoDup_app. split; [done|]. split; [|apply NoDup_singleton].
  intros m Hm ->%list_elem_of_singleton. done.
Qed.

Lemma addItem_keeps_names_distinct_example :
  NoDup (name <$> addItem (λ _, "1") "Soda Can" (Int 150) (Str "2")
           [ {| name := "Small Fries"; priceCents := SNum (Int 299);
                qty := SNum (Int 2) |} ]).
Proof.
  apply (addItem_keeps_names_distinct (λ _, "1") "Soda Can" (Int 150) (Str "2")).
  apply (bool_decide_unpack (NoDup _)). vm_compute. exact I.
Defined.

(** *** The quantity that is stored *)

Lemma Math_max_1_Int n z : Math_max (Int 1) n = Int z → 1 ≤ z.
Proof.
  destruct n as [y|x]; unfold Math_max.
  - intros [= <-]. lia.
  - destruct (SFcompare _ _) as [[]|]; intros Heq; inversion Heq; lia.
Qed.

(** X22. The quantity that [setQty] and [addItem] make of their argument is
    [NaN], or an integer of at least 1, or a double above 1; so what is
    stored of it is [null], or a valid quantity, or a double above 1. *)
Theorem coerce_range (ts : number → string) (a : arg) :
  (coerce ts a = NaN
   ∨ (∃ z, coerce ts a = Int z ∧ 1 ≤ z)
   ∨ (∃ x, coerce ts a = Dbl x ∧ SFcompare (to_b64 (Int 1)) x = Some Lt))
  ∧ (stringify (coerce ts a) = SNull
     ∨ valid_qty (stringify (coerce ts a))
     ∨ (∃ x, stringify (coerce ts a) = SNum (Dbl x)
             ∧ SFcompare (to_b64 (Int 1)) x = Some Lt)).
Proof.
  assert (H : coerce ts a = NaN
              ∨ (∃ z, coerce ts a = Int z ∧ 1 ≤ z)
              ∨ (∃ x, coerce ts a = Dbl x ∧ SFcompare (to_b64 (Int 1)) x = Some Lt)).
  { unfold coerce. destruct (parseInt ts _) as [y|x].
    - right. left. exists (Z.max 1 y). split; [reflexivity | lia].
    - unfold Math_max. change (to_b64 (Dbl x)) with x.
      destruct (SFcompare (to_b64 (Int 1)) x) as [[]|] eqn:Hc.
      + right. left. exists 1. by split.
      + right. right. by exists x.
      + right. left. exists 1. by split.
      + by left. }
  split; [done|].
  destruct H as [->|[(z & -> & Hz)|(x & -> & Hx)]].
  - by left.
  - right. left. by exists z.
  - destruct x as [s| | |s m e]; simpl.
    + right. right. eauto.
    + by left.
    + by left.
    + right. right. eauto.
Qed.

(** X23. An argument that is missing, or falsy as 0 and the empty string
    are, counts as 1; a string that is not empty and starts with an
    integer counts as that integer, and as 1 when that is less. *)
Theorem coerce_defaults_to_one (ts : number → string) :
  (∀ a, truthy a = false → coerce ts a = Int 1)
  ∧ (∀ s z, s ≠ "" → parseInt_string s = Int z →
       coerce ts (Str s) = Int (Z.max 1 z)).
Proof.
  split.
  - intros a Ha. unfold coerce. by rewrite Ha.
  - intros s z. apply coerce_digits.
Qed.

Lemma coerce_defaults_to_one_example :
  coerce (λ _, "0") (Num (Int 0)) = Int 1
  ∧ coerce (λ _, "0") (Str "-5 boxes") = Int (Z.max 1 (-5)).
Proof.
  destruct (coerce_defaults_to_one (λ _, "0")) as [H1 H2]. split.
  - apply H1. reflexivity.
  - apply H2; [discriminate | vm_compute; reflexivity].
Defined.

(** X24. [addItem] keeps the quantities valid: when every row has an
    integer quantity of at least 1 and the argument counts as an integer,
    every row has one afterwards, as long as no sum leaves the integers
    that binary64 holds exactly. *)
Theorem addItem_keeps_quantities_valid (ts : number → string) (n : string)
        (p : number) (a : arg) (cart : list row) (q : Z) :
  Forall (λ r, valid_qty (qty r)) cart →
  coerce ts (match a with Missing => Num (Int 1) | _ => a end) = Int q →
  (∀ r z, r ∈ cart → qty r = SNum (Int z) → z + q ≤ 2 ^ 53) →
  Forall (λ r, valid_qty (qty r)) (addItem ts n p a cart).
Proof.
  intros Hcart Hq Hmax. pose proof (Math_max_1_Int _ _ Hq) as Hq1.
  unfold addItem. rewrite Hq. destruct (find cart n) as [i|] eqn:Hf.
  - apply Forall_alter; [done|]. intros r Hr (z & Hz & Hz1). simpl.
    rewrite Hz. simpl. exists (z + q).
    rewrite NumFacts.of_Z_safe.
    + split; [done | lia].
    + split; [lia|]. eapply Hmax; [|done]. by eapply list_elem_of_lookup_2.
  - apply Forall_app. split; [done|]. constructor; [|constructor].
    simpl. by exists q.
Qed.

Lemma addItem_keeps_quantities_valid_example :
  Forall (λ r, valid_qty (qty r))
         (addItem (λ _, "1") "Small Fries" (Int 299) (Str "3")
            [ {| name := "Small Fries"; priceCents := SNum (Int 299);
                 qty := SNum (Int 2) |} ]).
Proof.
  apply (addItem_keeps_quantities_valid (λ _, "1") "Small Fries" (Int 299) (Str "3")
           _ 3).
  - repeat constructor. exists 2. split; [reflexivity | lia].
  - vm_compute. reflexivity.
  - intros r z Hr Hz. apply elem_of_cons in Hr as [->|Hr].
    + injection Hz as <-. vm_compute. discriminate.
    + by apply elem_of_nil in Hr.
Defined.

(** *** Setting a quantity *)

(** X25. [setQty] changes nothing but the quantity of the row at the
    index: the cart keeps its length, its names and its prices, the row at
    the index gets the coerced quantity, the other rows stay as they are,
    and an index at which there is no row leaves the cart as it is. *)
Theorem setQty_changes_one_quantity (ts : number → string) (i : nat) (a : arg)
        (cart : list row) :
  length (setQty ts i a cart) = length cart
  ∧ name <$> setQty ts i a cart = name <$> cart
  ∧ priceCents <$> setQty ts i a cart = priceCents <$> cart
  ∧ (∀ r, cart !! i = Some r →
       setQty ts i a cart !! i = Some (with_qty (stringify (coerce ts a)) r))
  ∧ (∀ j, j ≠ i → setQty ts i a cart !! j = cart !! j)
  ∧ ((length cart ≤ i)%nat → setQty ts i a cart = cart).
Proof.
  unfold setQty. split; [apply length_alter|].
  split; [by apply names_alter|]. split.
  { rewrite (list_fmap_alter priceCents _ id).
    - by apply list_alter_id.
    - by apply Forall_forall. }
  split.
  { intros r Hr. by rewrite list_lookup_alter_eq, Hr. }
  split.
  { intros j Hj. by apply list_lookup_alter_ne. }
  intros Hi. apply list_eq. intros j. destruct (decide (i = j)) as [<-|Hj].
  - rewrite list_lookup_alter_eq. by rewrite (lookup_ge_None_2 cart i).
  - by apply list_lookup_alter_ne.
Qed.

(** X26. Of two calls of [setQty] for the same index the later one
    decides, and calls for different indices can be swapped. *)
Theorem setQty_last_write_wins (ts : number → string) (i j : nat) (a b : arg)
        (cart : list row) :
  setQty ts i a (setQty ts i b cart) = setQty ts i a cart
  ∧ (i ≠ j →
     setQty ts i a (setQty ts j b cart) = setQty ts j b (setQty ts i a cart)).
Proof.
  unfold setQty. split.
  - rewrite list_alter_alter_eq. by apply list_alter_ext.
  - intros Hij. by apply list_alter_alter_ne.
Qed.

(** *** Removing a row *)

(** X27. [removeItem] removes exactly one row for every index below the
    length of a cart that is not empty, the negative ones included: the
    row at the index, or counted from the end for a negative index, the
    first row when that goes beyond the start.  An index from the length
    on removes nothing. *)
Theorem removeItem_removes_one_row (index : Z) (cart : list row) :
  let len := Z.of_nat (length cart) in
  (len ≤ index → removeItem index cart = cart)
  ∧ (index < len → cart ≠ [] →
     S (length (removeItem index cart)) = length cart)
  ∧ (0 ≤ index < len →
     removeItem index cart
     = take (Z.to_nat index) cart ++ drop (S (Z.to_nat index)) cart)
  ∧ (- len ≤ index < 0 →
     removeItem index cart
     = take (Z.to_nat (len + index)) cart ++ drop (S (Z.to_nat (len + index))) cart)
  ∧ (index < - len → removeItem index cart = drop 1 cart).
Proof.
  intros len. unfold removeItem. fold len. repeat split.
  - intros Hi. destruct (Z.ltb_spec index 0); [lia|].
    rewrite Z.min_r by lia. unfold len. rewrite Nat2Z.id.
    rewrite delete_take_drop, take_ge, drop_ge by lia. by rewrite app_nil_r.
  - intros Hi Hne.
    assert (0 < len) by (unfold len; destruct cart; [done | simpl; lia]).
    rewrite length_delete.
    + unfold len in *. lia.
    + apply lookup_lt_is_Some. unfold len in *.
      destruct (Z.ltb_spec index 0); lia.
  - intros Hi. destruct (Z.ltb_spec index 0); [lia|].
    rewrite Z.min_l by lia. apply delete_take_drop.
  - intros Hi. destruct (Z.ltb_spec index 0); [|lia].
    rewrite Z.max_l by lia. apply delete_take_drop.
  - intros Hi. destruct (Z.ltb_spec index 0); [|lia].
    rewrite Z.max_r by lia. by destruct cart.
Qed.

Lemma removeItem_removes_one_row_last :
  removeItem (-1)
    [ {| name := "Small Fries"; priceCents := SNum (Int 299); qty := SNum (Int 2) |};
      {| name := "Soda Can"; priceCents := SNum (Int 150); qty := SNum (Int 1) |} ]
  = [ {| name := "Small Fries"; priceCents := SNum (Int 299); qty := SNum (Int 2) |} ].
Proof.
  destruct (removeItem_removes_one_row (-1)
    [ {| name := "Small Fries"; priceCents := SNum (Int 299); qty := SNum (Int 2) |};
      {| name := "Soda Can"; priceCents := SNum (Int 150); qty := SNum (Int 1) |} ])
    as (_ & _ & _ & H & _).
  rewrite H; [reflexivity|]. simpl. lia.
Defined.

(** X28. Removing the last row undoes the [addItem] of a name that the
    cart did not have, by its index as well as by the index -1. *)
Theorem removeItem_undoes_addItem (ts : number → string) (n : string)
        (p : number) (a : arg) (cart : list row) :
  (∀ r, r ∈ cart → name r ≠ n) →
  removeItem (Z.of_nat (length cart)) (addItem ts n p a cart) = cart
  ∧ removeItem (-1) (addItem ts n p a cart) = cart.
Proof.
  intros H. apply find_None in H. unfold addItem. rewrite H.
  unfold removeItem. rewrite length_app. simpl length.
  replace (Z.of_nat (length cart + 1)) with (Z.of_nat (length cart) + 1) by lia.
  split.
  - destruct (Z.ltb_spec (Z.of_nat (length cart)) 0); [lia|].
    rewrite Z.min_l by lia. rewrite Nat2Z.id.
    by rewrite delete_middle, app_nil_r.
  - change (-1 <? 0) with true. cbn match.
    rewrite Z.max_l by lia.
    replace (Z.to_nat (Z.of_nat (length cart) + 1 + -1)) with (length cart) by lia.
    by rewrite delete_middle, app_nil_r.
Qed.

Lemma removeItem_undoes_addItem_example :
  removeItem (Z.of_nat (length (@nil row)))
             (addItem (λ _, "1") "Soda Can" (Int 150) Missing []) = []
  ∧ removeItem (-1) (addItem (λ _, "1") "Soda Can" (Int 150) Missing []) = [].
Proof.
  apply (removeItem_undoes_addItem (λ _, "1") "Soda Can" (Int 150) Missing []).
  intros r Hr. by apply elem_of_nil in Hr.
Defined.

(** *** The subtotal of the cart *)

Lemma row_total_whole r p q :
  number_of (priceCents r) = Int p → number_of (qty r) = Int q →
  row_total r = p * q.
Proof.
  unfold row_total.
  destruct (priceCents r) as [|[p'|x]], (qty r) as [|[q'|y]]; simpl;
    intros [= <-] [= <-] || intros [=] || intros ? [=]; lia.
Qed.

Lemma rows_total_nonneg cart : Forall whole_row cart → 0 ≤ rows_total cart.
Proof.
  induction 1 as [|r cart (p & q & Hp & Hq & ? & ?) _ IH]; simpl; [lia|].
  rewrite (row_total_whole r p q Hp Hq). nia.
Qed.

(** Within the safe range the reduction is the sum in [Z], from any
    start. *)
Lemma subtotal_from cart a :
  Forall whole_row cart → 0 ≤ a → a + rows_total cart ≤ 2 ^ 53 →
  fold_left (λ s r, add s (mul (number_of (priceCents r)) (number_of (qty r))))
            cart (Int a)
  = Int (a + rows_total cart).
Proof.
  intros H. revert a.
  induction H as [|r cart (p & q & Hp & Hq & ? & ?) Hrest IH]; intros a Ha Hmax; simpl.
  - f_equal. lia.
  - pose proof (rows_total_nonneg cart Hrest) as Hnn.
    simpl in Hmax. rewrite (row_total_whole r p q Hp Hq) in Hmax |- *.
    rewrite Hp, Hq. simpl.
    rewrite (NumFacts.of_Z_safe (p * q)) by nia.
    rewrite (NumFacts.of_Z_safe (a + p * q)) by nia.
    rewrite IH by nia. f_equal. lia.
Qed.

(** X29. For a cart whose prices and quantities are integers that are not
    negative, or [null], [subtotalCents] is the sum of price times
    quantity over the rows, a [null] counting as 0, as long as that sum is
    within the integers that binary64 holds exactly. *)
Theorem subtotalCents_is_the_sum (cart : list row) :
  Forall whole_row cart → rows_total cart ≤ 2 ^ 53 →
  subtotalCents cart = Int (rows_total cart).
Proof.
  intros H Hmax. unfold subtotalCents.
  by rewrite (subtotal_from cart 0 H) by lia.
Qed.

Lemma subtotalCents_is_the_sum_example :
  subtotalCents
    [ {| name := "Small Fries"; priceCents := SNum (Int 299); qty := SNum (Int 2) |};
      {| name := "Soda Can"; priceCents := SNum (Int 150); qty := SNull |} ]
  = Int 598.
Proof.
  apply (subtotalCents_is_the_sum
    [ {| name := "Small Fries"; priceCents := SNum (Int 299); qty := SNum (Int 2) |};
      {| name := "Soda Can"; priceCents := SNum (Int 150); qty := SNull |} ]).
  - repeat constructor.
    + exists 299, 2. repeat split; (reflexivity || lia).
    + exists 150, 0. repeat split; (reflexivity || lia).
  - vm_compute. discriminate.
Defined.

Lemma rows_total_alter (f : row → row) (i : nat) (cart : list row) (r : row) :
  cart !! i = Some r →
  rows_total (alter f i cart) = rows_total cart - row_total r + row_total (f r).
Proof.
  unfold rows_total. revert i.
  induction cart as [|r' cart IH]; intros [|i] Hr; try done.
  - injection Hr as ->. simpl. lia.
  - change (alter f (S i) (r' :: cart)) with (r' :: alter f i cart).
    cbn [foldr]. rewrite (IH i Hr). lia.
Qed.

(** X30. After [setQty] with a quantity that is not numeric, such as
    "abc", the row is still in the cart but no longer counts: the subtotal
    is the sum over the other rows. *)
Theorem subtotal_skips_non_numeric_quantity (ts : number → string) (i : nat)
        (a : arg) (cart : list row) (r : row) :
  Forall whole_row cart → rows_total cart ≤ 2 ^ 53 →
  cart !! i = Some r → coerce ts a = NaN →
  setQty ts i a cart !! i = Some (with_qty SNull r)
  ∧ subtotalCents (setQty ts i a cart) = Int (rows_total cart - row_total r).
Proof.
  intros Hcart Hmax Hr Ha. unfold setQty. rewrite Ha.
  change (stringify NaN) with SNull.
  split; [by rewrite list_lookup_alter_eq, Hr|].
  assert (Hr0 : 0 ≤ row_total r).
  { apply (Forall_lookup_1 _ _ _ _ Hcart) in Hr as (p & q & Hp & Hq & ? & ?).
    rewrite (row_total_whole r p q Hp Hq). nia. }
  assert (Hnull : ∀ r', row_total (with_qty SNull r') = 0).
  { intros r'. unfold row_total. simpl. by destruct (priceCents r') as [|[]]. }
  unfold subtotalCents. rewrite (subtotal_from _ 0).
  - rewrite (rows_total_alter _ _ _ _ Hr). fold (with_qty SNull r).
    rewrite Hnull. f_equal. lia.
  - apply Forall_alter; [done|].
    intros r' _ (p & q & Hp & Hq & ? & ?). exists p, 0. by repeat split.
  - lia.
  - rewrite (rows_total_alter _ _ _ _ Hr). fold (with_qty SNull r).
    rewrite Hnull. lia.
Qed.

Lemma subtotal_skips_non_numeric_quantity_example :
  setQty (λ _, "1") 0 (Str "abc")
    [ {| name := "Small Fries"; priceCents := SNum (Int 299); qty := SNum (Int 2) |};
      {| name := "Soda Can"; priceCents := SNum (Int 150); qty := SNum (Int 1) |} ] !! 0%nat
  = Some (with_qty SNull
            {| name := "Small Fries"; priceCents := SNum (Int 299);
               qty := SNum (Int 2) |})
  ∧ subtotalCents
      (setQty (λ _, "1") 0 (Str "abc")
         [ {| name := "Small Fries"; priceCents := SNum (Int 299); qty := SNum (Int 2) |};
           {| name := "Soda Can"; priceCents := SNum (Int 150); qty := SNum (Int 1) |} ])
    = Int 150.
Proof.
  apply (subtotal_skips_non_numeric_quantity (λ _, "1") 0 (Str "abc")
    [ {| name := "Small Fries"; priceCents := SNum (Int 299); qty := SNum (Int 2) |};
      {| name := "Soda Can"; priceCents := SNum (Int 150); qty := SNum (Int 1) |} ]
    {| name := "Small Fries"; priceCents := SNum (Int 299); qty := SNum (Int 2) |}).
  - repeat constructor.
    + exists 299, 2. repeat split; (reflexivity || lia).
    + exists 150, 1. repeat split; (reflexivity || lia).
  - vm_compute. discriminate.
  - reflexivity.
  - vm_compute. reflexivity.
Defined.

End CartExtras.
